(** * Textual demo widgets: the star-count refresh worker and the key panel

    A shallow embedding of

    - [StarCount] in [src/textual/demo/home.py]: the reactive counters, the
      [get_stars] worker and the [on_mount] / [on_click] handlers;
    - [BindingsTable.render_bindings_table] in
      [src/textual/widgets/_key_panel.py].

    The worker is written in a small state-and-exception monad whose
    primitives are the effects the Python body performs: assignments to the
    reactive attributes, [notify], and the four suspension points
    ([asyncio.sleep], entering and leaving [httpx.AsyncClient], and
    [client.get]).  What the outside world answers at each suspension point
    is an explicit environment. *)

From Stdlib Require Import List String Ascii Bool NArith ZArith Lia.
Import ListNotations.
Open Scope string_scope.

(** ** Python values and exceptions *)

(** The values [Response.json()] can return.  A [dict] keeps its items in
    insertion order with unique keys. *)
#[warnings="-register-all"]
Inductive pyval : Type :=
| PyNone
| PyBool (b : bool)
| PyInt (z : Z)
| PyFloat (literal : string)
| PyStr (s : string)
| PyList (items : list pyval)
| PyDict (items : list (string * pyval)).

(** The exception classes that can reach [get_stars].  The first five derive
    from [Exception]; the last three derive from [BaseException] only. *)
Inductive exn : Type :=
| KeyError (key : string)
| TypeError
| JSONDecodeError
| HTTPError (name : string)
| OtherException (name : string)
| CancelledError
| KeyboardInterrupt
| SystemExit.

(** [isinstance(e, Exception)]. *)
Definition isinstance_Exception (e : exn) : bool :=
  match e with
  | KeyError _ | TypeError | JSONDecodeError | HTTPError _ | OtherException _ => true
  | CancelledError | KeyboardInterrupt | SystemExit => false
  end.

(** Where in the [try] body an exception was raised (its traceback line). *)
Inductive stage : Type :=
| Delay                    (* await asyncio.sleep(1) *)
| ClientOpen               (* httpx.AsyncClient() and __aenter__ *)
| Request                  (* await client.get(...) *)
| Parse                    (* .json() *)
| ClientClose              (* __aexit__ *)
| Subscript (key : string) (* repository_json[key] *).

Inductive result (A : Type) : Type :=
| Ok (a : A)
| Raise (tb : stage) (e : exn).
Arguments Ok {A} a.
Arguments Raise {A} tb e.

(** [obj[key]] for a string key. *)
Fixpoint dict_get (items : list (string * pyval)) (key : string) : option pyval :=
  match items with
  | [] => None
  | (k, v) :: rest => if String.eqb k key then Some v else dict_get rest key
  end.

Definition getitem (obj : pyval) (key : string) : result pyval :=
  match obj with
  | PyDict items =>
      match dict_get items key with
      | Some v => Ok v
      | None => Raise (Subscript key) (KeyError key)
      end
  | _ => Raise (Subscript key) TypeError
  end.

(** ** The widget and its world *)

Inductive Severity : Type := information | warning | error.

Record Notice : Type := mkNotice {
  message : string;
  title : string;
  severity : Severity
}.

(** The reactive attributes of a [StarCount]: [stars] and [forks] are declared
    in the class, [loading] and [tooltip] are inherited from [Widget]. *)
Record StarCount : Type := mkStarCount {
  stars : pyval;
  forks : pyval;
  loading : bool;
  tooltip : option string
}.

(** [stars = reactive(25251, recompose=True)], [forks = reactive(776,
    recompose=True)]; a new widget is not loading and has no tooltip. *)
Definition StarCount_new : StarCount :=
  {| stars := PyInt 25251; forks := PyInt 776; loading := false; tooltip := None |}.

(** The operations a coroutine suspends on. *)
Inductive awaited : Type :=
| Sleep (seconds : N)
| AEnter
| HttpGet (url : string)
| AExit.

Inductive event : Type :=
| SetLoading (b : bool)
| SetStars (v : pyval)
| SetForks (v : pyval)
| Notify (n : Notice)
| Await (op : awaited).

(** A log entry: the clock (in milliseconds) and the widget as any observer
    would see it at the moment the event is issued. *)
Record entry : Type := mkEntry {
  at_ms : N;
  seen : StarCount;
  what : event
}.

(** The log is kept most-recent-first; [trace] gives it in time order. *)
Record world : Type := mkWorld {
  self : StarCount;
  clock : N;
  log : list entry
}.

Definition trace (w : world) : list entry := rev (log w).
Definition events (w : world) : list event := map what (trace w).

(** ** What the outside world answers *)

Inductive answer (A : Type) : Type :=
| Gives (a : A)
| Throws (e : exn).
Arguments Gives {A} a.
Arguments Throws {A} e.

(** An answer and the time it took to come.  For [asyncio.sleep] that
    returns, [took] is the time slept beyond the requested delay. *)
Record reply (A : Type) : Type := mkReply {
  took : N;
  gave : answer A
}.
Arguments mkReply {A} took gave.
Arguments took {A} r.
Arguments gave {A} r.

Record Response : Type := mkResponse {
  json : answer pyval
}.

Record env : Type := mkEnv {
  sleep_reply : reply unit;
  aenter_reply : reply unit;
  get_reply : reply Response;
  aexit_reply : reply unit
}.

(** ** The monad *)

Definition M (A : Type) : Type := env -> world -> result A * world.

Definition ret {A} (a : A) : M A := fun _ w => (Ok a, w).

Definition bind {A B} (m : M A) (k : A -> M B) : M B :=
  fun e w =>
    match m e w with
    | (Ok a, w') => k a e w'
    | (Raise tb x, w') => (Raise tb x, w')
    end.

Declare Scope py_scope.
Delimit Scope py_scope with py.
Notation "x <- m ;; k" := (bind m (fun x => k))
  (at level 61, m at next level, right associativity) : py_scope.
Notation "m ;; k" := (bind m (fun _ => k))
  (at level 61, right associativity) : py_scope.
Open Scope py_scope.

(** A pure computation that may raise. *)
Definition lift {A} (r : result A) : M A := fun _ w => (r, w).

(** [try: body / except Exception: handler]: only instances of [Exception]
    are caught, anything else keeps propagating. *)
Definition try_except_Exception (body handler : M unit) : M unit :=
  fun e w =>
    match body e w with
    | (Ok a, w') => (Ok a, w')
    | (Raise tb x, w') =>
        if isinstance_Exception x then handler e w' else (Raise tb x, w')
    end.

Definition emit (ev : event) : M unit :=
  fun _ w =>
    (Ok tt, {| self := self w; clock := clock w;
               log := {| at_ms := clock w; seen := self w; what := ev |} :: log w |}).

Definition tick (ms : N) : M unit :=
  fun _ w => (Ok tt, {| self := self w; clock := (clock w + ms)%N; log := log w |}).

Definition update (f : StarCount -> StarCount) : M unit :=
  fun _ w => (Ok tt, {| self := f (self w); clock := clock w; log := log w |}).

(** Suspend on [op]; the environment's [r] says how long the suspension
    lasts ([base] plus [took r] when it returns) and how it ends.  Nothing
    else runs during the suspension: a computation written with [await] is
    one coroutine run in isolation.  Coroutines that overlap are run by
    [resume] in a [pool], further down. *)
Definition await {A} (op : awaited) (tb : stage) (base : N) (r : env -> reply A) : M A :=
  fun e w =>
    let w1 := snd (emit (Await op) e w) in
    match gave (r e) with
    | Gives a => (Ok a, snd (tick (base + took (r e)) e w1))
    | Throws x => (Raise tb x, snd (tick (took (r e)) e w1))
    end.

(** *** Assignments to the reactive attributes *)

Definition set_loading (b : bool) : M unit :=
  emit (SetLoading b) ;;
  update (fun s => {| stars := stars s; forks := forks s; loading := b; tooltip := tooltip s |}).

Definition set_stars (v : pyval) : M unit :=
  emit (SetStars v) ;;
  update (fun s => {| stars := v; forks := forks s; loading := loading s; tooltip := tooltip s |}).

Definition set_forks (v : pyval) : M unit :=
  emit (SetForks v) ;;
  update (fun s => {| stars := stars s; forks := v; loading := loading s; tooltip := tooltip s |}).

(** Modelled from the spec: [Widget.notify] is not under [src/]; a notice has
    a message, a title and a severity level, and a call that passes no
    [severity] emits an informational notice. *)
Definition notify (msg ttl : string) (sev : option Severity) : M unit :=
  emit (Notify {| message := msg; title := ttl;
                  severity := match sev with Some s => s | None => information end |}).

(** *** The awaited operations of [get_stars] *)

(** [await asyncio.sleep(seconds)]: when it returns, at least [seconds] have
    passed. *)
Definition asyncio_sleep (seconds : N) : M unit :=
  await (Sleep seconds) Delay (seconds * 1000)%N sleep_reply.

Definition client_get (url : string) : M Response :=
  await (HttpGet url) Request 0%N get_reply.

Definition response_json (r : Response) : M pyval :=
  lift (match json r with Gives v => Ok v | Throws x => Raise Parse x end).

(** [async with httpx.AsyncClient() as client: body].  [__aexit__] runs
    whether or not the body raised; httpx's returns [None], so an exception
    of the body is never suppressed, and one raised by [__aexit__] itself
    replaces it. *)
Definition async_with_AsyncClient {A} (body : M A) : M A :=
  fun e w =>
    match await AEnter ClientOpen 0%N aenter_reply e w with
    | (Raise tb x, w1) => (Raise tb x, w1)
    | (Ok _, w1) =>
        let (r, w2) := body e w1 in
        match await AExit ClientClose 0%N aexit_reply e w2 with
        | (Raise tb x, w3) => (Raise tb x, w3)
        | (Ok _, w3) => (r, w3)
        end
    end.

(** ** [StarCount.get_stars] *)

Definition newline : string := String (ascii_of_nat 10) EmptyString.

Definition install_message : string :=
  "Install httpx to update stars from the GitHub API." ++ newline ++ newline
  ++ "$ [b]pip install httpx[/b]".

Definition repo_url : string := "https://api.github.com/repos/textualize/textual".

(** Lines 170-176: the body of the [try]. *)
Definition attempt : M unit :=
  asyncio_sleep 1 ;;
  repository_json <- async_with_AsyncClient
                       (r <- client_get repo_url ;; response_json r) ;;
  v <- lift (getitem repository_json "stargazers_count") ;;
  set_stars v ;;
  v <- lift (getitem repository_json "forks") ;;
  set_forks v.

Definition get_stars (HTTPX_AVAILABLE : bool) : M unit :=
  if negb HTTPX_AVAILABLE then
    notify install_message "GitHub Stars" None
  else
    set_loading true ;;
    try_except_Exception attempt
      (notify "Unable to update star count (maybe rate-limited)" "GitHub stars"
         (Some error)) ;;
    set_loading false.

(** ** Running a computation *)

(** A world with an empty log: [s] is the widget, [t] the time. *)
Definition start (s : StarCount) (t : N) : world :=
  {| self := s; clock := t; log := [] |}.

Definition is_await (ev : event) : bool :=
  match ev with Await _ => true | _ => false end.

Definition is_get (ev : event) : bool :=
  match ev with Await (HttpGet _) => true | _ => false end.

Fixpoint notices_of (evs : list event) : list Notice :=
  match evs with
  | [] => []
  | Notify n :: rest => n :: notices_of rest
  | _ :: rest => notices_of rest
  end.

Definition notices (w : world) : list Notice := notices_of (events w).



Definition error_notice : Notice :=
  {| message := "Unable to update star count (maybe rate-limited)";
     title := "GitHub stars"; severity := error |}.

Definition install_notice : Notice :=
  {| message := install_message; title := "GitHub Stars"; severity := information |}.

(** The exception the [try] body raises under [e], with the stage that
    raises it; [None] when the body runs to its end. *)
Definition failure (e : env) : option (stage * exn) :=
  match fst (attempt e (start StarCount_new 0)) with
  | Ok _ => None
  | Raise tb x => Some (tb, x)
  end.


(** The parsed body, when the delay is over, the client opens, the GET
    returns a response, its body parses, and the client closes. *)
Definition fetched (e : env) : option pyval :=
  match gave (sleep_reply e), gave (aenter_reply e), gave (get_reply e),
        gave (aexit_reply e) with
  | Gives _, Gives _, Gives r, Gives _ =>
      match json r with
      | Gives j => Some j
      | Throws _ => None
      end
  | _, _, _, _ => None
  end.

(** ** Activation: [on_mount] and [on_click] *)

(** Modelled from the spec: the [@work] decorator is not under [src/].
    Calling the decorated [get_stars] triggers the fetch asynchronously and
    the caller never blocks: the handler only hands a work item to the worker
    manager, and the coroutine body runs afterwards. *)
Inductive work_item : Type := GetStars.

Definition handler : Type := StarCount -> StarCount * list work_item.

Definition on_mount : handler :=
  fun s =>
    ({| stars := stars s; forks := forks s; loading := loading s;
        tooltip := Some "Click to refresh" |},
     [GetStars]).

Definition on_click : handler := fun s => (s, [GetStars]).

Definition run_worker (HTTPX_AVAILABLE : bool) (item : work_item) (e : env) (w : world) : world :=
  match item with
  | GetStars => snd (get_stars HTTPX_AVAILABLE e w)
  end.

(** Run the scheduled workers one after the other, each to completion,
    each against its own environment. *)
Fixpoint run_workers (HTTPX_AVAILABLE : bool) (items : list work_item) (envs : list env)
    (w : world) : world :=
  match items, envs with
  | item :: items', e :: envs' =>
      run_workers HTTPX_AVAILABLE items' envs' (run_worker HTTPX_AVAILABLE item e w)
  | _, _ => w
  end.

(** One activation, allowed to complete. *)
Definition activate (HTTPX_AVAILABLE : bool) (h : handler) (e : env) (w : world) : world :=
  let (s, items) := h (self w) in
  run_workers HTTPX_AVAILABLE items [e] {| self := s; clock := clock w; log := log w |}.

(** ** Sample environments *)

Definition prompt {A} (a : A) : reply A := {| took := 0; gave := Gives a |}.
Definition failing {A} (x : exn) : reply A := {| took := 0; gave := Throws x |}.

Definition env_of_body (body : answer pyval) : env :=
  {| sleep_reply := prompt tt; aenter_reply := prompt tt;
     get_reply := prompt {| json := body |}; aexit_reply := prompt tt |}.

(** [{"stargazers_count": 42, "forks": 7}] *)
Definition env_ok : env :=
  env_of_body (Gives (PyDict [("stargazers_count", PyInt 42); ("forks", PyInt 7)])).

(** [{"stargazers_count": 42}]: the second field is missing. *)
Definition env_no_forks : env :=
  env_of_body (Gives (PyDict [("stargazers_count", PyInt 42)])).

(** The rate-limit answer of the GitHub API: neither field is present. *)
Definition env_rate_limited : env :=
  env_of_body (Gives (PyDict [("message", PyStr "API rate limit exceeded")])).

(** The connection fails. *)
Definition env_offline : env :=
  {| sleep_reply := prompt tt; aenter_reply := prompt tt;
     get_reply := failing (HTTPError "ConnectError"); aexit_reply := prompt tt |}.

(** The worker is cancelled while it sleeps. *)
Definition env_cancelled : env :=
  {| sleep_reply := failing CancelledError; aenter_reply := prompt tt;
     get_reply := failing (HTTPError "ConnectError"); aexit_reply := prompt tt |}.



(** The two activation events. *)
Inductive activation : Type := Mounted | Clicked.

Definition handler_of (a : activation) : handler :=
  match a with
  | Mounted => on_mount
  | Clicked => on_click
  end.

(** * The key panel: [BindingsTable.render_bindings_table] *)

(** The fields of [textual.binding.Binding] the table reads ([action],
    [description], [tooltip]) and the key it is bound to. *)
Record Binding : Type := mkBinding {
  key : string;
  action : string;
  description : string;
  binding_tooltip : string
}.

(** DOM nodes are compared by identity. *)
Definition Node : Type := nat.

(** [ActiveBinding(node, binding, enabled, tooltip)], the values of
    [screen.active_bindings]. *)
Definition ActiveBinding : Type := (Node * Binding * bool * string)%type.

(** [itemgetter(0)] *)
Definition itemgetter_0 (ab : ActiveBinding) : Node :=
  let '(node, _, _, _) := ab in node.

Definition binding_of (ab : ActiveBinding) : Binding :=
  let '(_, binding, _, _) := ab in binding.

(** A [rich.text.Text]: spans of characters, each with an optional style. *)
Definition Text : Type := list (string * option string).

Record Row : Type := mkRow {
  cells : Text * Text;
  end_section : bool
}.

Record Table : Type := mkTable {
  border_style : string;
  columns : list (string * string);
  rows : list Row
}.

Definition add_column (table : Table) (header justify : string) : Table :=
  {| border_style := border_style table;
     columns := (columns table ++ [(header, justify)])%list;
     rows := rows table |}.

(** [Table.add_row] with two cells: the table gets a column (no header,
    left-justified) for every cell beyond the columns it has. *)
Definition add_row (table : Table) (k d : Text) : Table :=
  {| border_style := border_style table;
     columns := (columns table
                 ++ repeat ("", "left") (2 - List.length (columns table)))%list;
     rows := (rows table ++ [{| cells := (k, d); end_section := false |}])%list |}.

(** [Table.add_section]: the last row, if there is one, ends a section. *)
Definition add_section (table : Table) : Table :=
  {| border_style := border_style table;
     columns := columns table;
     rows := match rev (rows table) with
             | [] => []
             | r :: before =>
                 rev ({| cells := cells r; end_section := true |} :: before)
             end |}.

(** [itertools.groupby]: maximal runs of consecutive items with equal keys,
    each with its key. *)
Fixpoint groupby {A K : Type} (eqb : K -> K -> bool) (keyf : A -> K) (l : list A)
    : list (K * list A) :=
  match l with
  | [] => []
  | x :: rest =>
      match groupby eqb keyf rest with
      | (k, g) :: gs =>
          if eqb (keyf x) k then (k, x :: g) :: gs
          else (keyf x, [x]) :: (k, g) :: gs
      | [] => [(keyf x, [x])]
      end
  end.

(** [d[k].append(v)] on a [defaultdict(list)]; items stay in the order their
    keys were first inserted. *)
Fixpoint defaultdict_append {V : Type} (d : list (string * list V)) (k : string) (v : V)
    : list (string * list V) :=
  match d with
  | [] => [(k, [v])]
  | (k', vs) :: rest =>
      if String.eqb k' k then (k', (vs ++ [v])%list) :: rest
      else (k', vs) :: defaultdict_append rest k v
  end.

Definition option_node_eqb (a b : option Node) : bool :=
  match a, b with
  | Some x, Some y => Nat.eqb x y
  | None, None => true
  | _, _ => false
  end.

(** What [render_bindings_table] raises: [rich.errors.MarkupError] from
    [Text.from_markup], [IndexError] from [multi_bindings[0]]. *)
Inductive render_error : Type :=
| MarkupError
| IndexError.

Inductive rendered (A : Type) : Type :=
| Done (a : A)
| Raises (err : render_error).

Arguments Done {A} a.
Arguments Raises {A} err.

Section BindingsTable.

(** The collaborators of the widget: [self.get_component_rich_style],
    [self.app.get_key_display] and [Text.from_markup], which gives [None]
    where rich raises [MarkupError] (a closing tag that closes nothing). *)
Variable get_component_rich_style : string -> string.
Variable get_key_display : Binding -> string.
Variable from_markup : string -> string -> option Text.

(** Lines 69-77; [None] stands for the [MarkupError] of line 71. *)
Definition render_description (description_style : string) (binding : Binding)
    : option Text :=
  match from_markup (description binding) description_style with
  | None => None
  | Some text =>
      Some match binding_tooltip binding with
           | EmptyString => text
           | tip => (text ++ [(" ", None)] ++ [(tip, Some "dim")])%list
           end
  end.

(** Lines 59-62. *)
Definition action_to_bindings (table_bindings : list ActiveBinding)
    : list (string * list (Binding * bool * string)) :=
  fold_left
    (fun d ab =>
       let '(_, binding, enabled, tooltip) := ab in
       defaultdict_append d (action binding) (binding, enabled, tooltip))
    table_bindings [].

(** Lines 79-84: [multi_bindings[0]] raises [IndexError] on an empty list,
    and the arguments of [add_row] are evaluated before the row is added. *)
Definition add_binding_rows (key_style description_style : string)
    (values : list (string * list (Binding * bool * string))) (table : Table)
    : rendered Table :=
  fold_left
    (fun acc item =>
       match acc with
       | Raises err => Raises err
       | Done table =>
           match snd item with
           | (binding, enabled, tooltip) :: _ =>
               match render_description description_style binding with
               | Some d =>
                   Done (add_row table [(get_key_display binding, Some key_style)] d)
               | None => Raises MarkupError
               end
           | [] => Raises IndexError
           end
       end)
    values (Done table).

(** One turn of the loop of line 55. *)
Definition render_group (state : Table * option Node) (group : Node * list ActiveBinding)
    : rendered (Table * option Node) :=
  let (table, previous_namespace) := state in
  let (namespace, table_bindings) := group in
  match table_bindings with
  | [] => Done (table, previous_namespace)
  | _ =>
      let key_style := get_component_rich_style "bindings-table--key" in
      let description_style := get_component_rich_style "bindings-table--description" in
      match add_binding_rows key_style description_style
              (action_to_bindings table_bindings) table with
      | Raises err => Raises err
      | Done table =>
          let table :=
            if negb (option_node_eqb (Some namespace) previous_namespace)
            then add_section table else table in
          Done (table, Some namespace)
      end
  end.

Definition render_bindings_table (bindings : list ActiveBinding) : rendered Table :=
  let table :=
    add_column
      {| border_style := get_component_rich_style "bindings-table--divider";
         columns := []; rows := [] |}
      "" "right" in
  match
    fold_left
      (fun acc group =>
         match acc with
         | Raises err => Raises err
         | Done state => render_group state group
         end)
      (groupby Nat.eqb itemgetter_0 bindings) (Done (table, None))
  with
  | Done (table, _) => Done table
  | Raises err => Raises err
  end.

(** The row that shows [binding], when its description is well-formed
    markup. *)
Definition row_of (binding : Binding) : option (Text * Text) :=
  match render_description (get_component_rich_style "bindings-table--description")
          binding with
  | Some d =>
      Some ([(get_key_display binding,
              Some (get_component_rich_style "bindings-table--key"))], d)
  | None => None
  end.

End BindingsTable.

(** The first binding of every action, in the order the actions first
    appear. *)
Fixpoint first_per_action (bs : list Binding) : list Binding :=
  match bs with
  | [] => []
  | b :: rest =>
      b :: filter (fun b' => negb (String.eqb (action b') (action b)))
             (first_per_action rest)
  end.

Definition has_action (a : string) (b : Binding) : bool := String.eqb (action b) a.

Definition count_action (a : string) (bs : list Binding) : nat :=
  List.length (filter (has_action a) bs).

Definition find_action (a : string) (bs : list Binding) : option Binding :=
  find (has_action a) bs.

(** Neighbouring runs have different keys. *)
Fixpoint adjacent_differ (ks : list Node) : bool :=
  match ks with
  | k1 :: ((k2 :: _) as rest) => negb (Nat.eqb k1 k2) && adjacent_differ rest
  | _ => true
  end.

(** ** The dictionary of one run *)

Definition entry_head (item : string * list (Binding * bool * string)) : list Binding :=
  match snd item with
  | (binding, _, _) :: _ => [binding]
  | [] => []
  end.

(** The first binding of every list of the dictionary, in item order. *)
Definition heads (d : list (string * list (Binding * bool * string))) : list Binding :=
  flat_map entry_head d.

Definition has_key (d : list (string * list (Binding * bool * string))) (k : string) : bool :=
  existsb (String.eqb k) (map fst d).

(** No list of the dictionary is empty, and every list sits under the action
    of its first binding. *)
Definition tidy (d : list (string * list (Binding * bool * string))) : Prop :=
  Forall (fun item => snd item <> []) d /\ map action (heads d) = map fst d.

Definition record_binding (d : list (string * list (Binding * bool * string)))
    (ab : ActiveBinding) : list (string * list (Binding * bool * string)) :=
  let '(_, binding, enabled, tooltip) := ab in
  defaultdict_append d (action binding) (binding, enabled, tooltip).

(** *** A screen whose namespaces interleave *)

Definition save_ctrl_s : Binding :=
  {| key := "ctrl+s"; action := "save"; description := "Save"; binding_tooltip := "" |}.

Definition quit_q : Binding :=
  {| key := "q"; action := "quit"; description := "Quit"; binding_tooltip := "" |}.

Definition save_f2 : Binding :=
  {| key := "f2"; action := "save"; description := "Save now"; binding_tooltip := "" |}.

(** Node 1 binds [ctrl+s] and [f2] to [save]; between them sits a binding of
    node 2 (a priority binding that replaced a key in place). *)
Definition interleaved : list ActiveBinding :=
  [(1%nat, save_ctrl_s, true, ""); (2%nat, quit_q, true, ""); (1%nat, save_f2, true, "")].

Definition style_by_name (name : string) : string := name.

(** Markup without tags. *)
Definition plain_markup (markup style : string) : option Text :=
  Some [(markup, Some style)].

(** Markup that may open with a closing tag, which closes nothing. *)
Definition strict_markup (markup style : string) : option Text :=
  if String.prefix "[/" markup then None else Some [(markup, Some style)].

Definition broken_help : Binding :=
  {| key := "f1"; action := "help"; description := "[/b]Help"; binding_tooltip := "" |}.

Definition in_namespace_with_action (n : Node) (a : string) (ab : ActiveBinding) : bool :=
  Nat.eqb (itemgetter_0 ab) n && has_action a (binding_of ab).

(** ** Further notions: events, fields of the body, sessions *)

Definition is_exit (ev : event) : bool :=
  match ev with Await AExit => true | _ => false end.

(** The environment's answer is a value, not an exception. *)
Definition answered {A} (r : reply A) : bool :=
  match gave r with Gives _ => true | Throws _ => false end.


(** A session: activations of the widget, each allowed to complete, each
    against its own environment. *)
Fixpoint run_session (HTTPX_AVAILABLE : bool) (acts : list (activation * env)) (w : world)
    : world :=
  match acts with
  | [] => w
  | (a, e) :: rest =>
      run_session HTTPX_AVAILABLE rest (activate HTTPX_AVAILABLE (handler_of a) e w)
  end.

(** The attempt under [e] fails with an instance of [Exception]. *)
Definition caught (e : env) : bool :=
  match failure e with
  | Some (_, x) => isinstance_Exception x
  | None => false
  end.

(** ** Further notions: the rows of a section *)

Definition plain_rows (cs : list (Text * Text)) : list Row :=
  map (fun c => {| cells := c; end_section := false |}) cs.

(** The rows of one section: only the last one ends it. *)
Fixpoint section_rows (cs : list (Text * Text)) : list Row :=
  match cs with
  | [] => []
  | [c] => [{| cells := c; end_section := true |}]
  | c :: rest => {| cells := c; end_section := false |} :: section_rows rest
  end.

(** The items of a list, the last one marked. *)
Fixpoint mark_last {A : Type} (l : list A) : list (A * bool) :=
  match l with
  | [] => []
  | [x] => [(x, true)]
  | x :: rest => (x, false) :: mark_last rest
  end.

(** A row as a test reads it: its cells and whether it ends a section. *)
Definition cells_and_end (r : Row) : option (Text * Text) * bool :=
  (Some (cells r), end_section r).

Definition add_rows (cs : list (Text * Text)) (table : Table) : Table :=
  fold_left (fun table c => add_row table (fst c) (snd c)) cs table.

(** The rows of [bs], in order, up to the first that cannot be rendered. *)
Fixpoint cells_of (row : Binding -> option (Text * Text)) (bs : list Binding)
    : option (list (Text * Text)) :=
  match bs with
  | [] => Some []
  | b :: rest =>
      match row b with
      | None => None
      | Some c => option_map (cons c) (cells_of row rest)
      end
  end.

(** The table run by run: the rows of the first binding of every action of
    a run, then a section break. *)
Fixpoint render_runs (row : Binding -> option (Text * Text))
    (runs : list (Node * list Binding)) (table : Table) : rendered Table :=
  match runs with
  | [] => Done table
  | (_, bs) :: rest =>
      match cells_of row (first_per_action bs) with
      | None => Raises MarkupError
      | Some cs => render_runs row rest (add_section (add_rows cs table))
      end
  end.

(** What the table reads of an active binding: its node and its binding. *)
Definition node_and_binding (ab : ActiveBinding) : Node * Binding :=
  (itemgetter_0 ab, binding_of ab).

(** ** Which bindings are shown *)

(** The bindings the table shows, each with the namespace of its run. *)
Definition shown_bindings (bindings : list ActiveBinding) : list (Node * Binding) :=
  flat_map
    (fun kg => map (pair (fst kg)) (first_per_action (map binding_of (snd kg))))
    (groupby Nat.eqb itemgetter_0 bindings).

(** [l1] is [l2] with some items left out, the others in the same order. *)
Inductive subseq {A : Type} : list A -> list A -> Prop :=
| subseq_nil : subseq [] []
| subseq_skip (x : A) (l1 l2 : list A) : subseq l1 l2 -> subseq l1 (x :: l2)
| subseq_take (x : A) (l1 l2 : list A) : subseq l1 l2 -> subseq (x :: l1) (x :: l2).

Fixpoint distinct (ks : list Node) : bool :=
  match ks with
  | [] => true
  | k :: rest => negb (existsb (Nat.eqb k) rest) && distinct rest
  end.

(** The runs of consecutive active bindings with the same namespace. *)
Definition runs_of (bindings : list ActiveBinding) : list (Node * list Binding) :=
  map (fun kg => (fst kg, map binding_of (snd kg)))
    (groupby Nat.eqb itemgetter_0 bindings).

Definition is_some {A : Type} (o : option A) : bool :=
  match o with Some _ => true | None => false end.

(** The description of every binding the table shows is well-formed
    markup. *)
Definition well_marked (get_component_rich_style : string -> string)
    (from_markup : string -> string -> option Text)
    (bindings : list ActiveBinding) : bool :=
  forallb
    (fun nb =>
       is_some (from_markup (description (snd nb))
                  (get_component_rich_style "bindings-table--description")))
    (shown_bindings bindings).

(** ** The dictionary of a run *)

(** [d.get(k, [])] *)
Definition defaultdict_get {V : Type} (d : list (string * list V)) (k : string) : list V :=
  match find (fun item => String.eqb (fst item) k) d with
  | Some item => snd item
  | None => []
  end.

(** What line 62 stores of an active binding. *)
Definition stored_of (ab : ActiveBinding) : Binding * bool * string :=
  let '(_, binding, enabled, tooltip) := ab in (binding, enabled, tooltip).


(** ** Overlapping attempts *)

(** Where a [get_stars] coroutine stands: not started, suspended at one of
    its four suspension points (at [__aexit__] it holds the outcome of the
    body of the [async with]), or finished. *)
Inductive pc : Type :=
| NotStarted
| AtSleep
| AtEnter
| AtGet
| AtExit (body : result pyval)
| Finished (r : result unit).

(** The two halves of [await]: before and after the suspension. *)
Definition suspend (op : awaited) : M unit := emit (Await op).

Definition resumed {A} (tb : stage) (base : N) (r : env -> reply A) : M A :=
  fun e w =>
    match gave (r e) with
    | Gives a => (Ok a, snd (tick (base + took (r e)) e w))
    | Throws x => (Raise tb x, snd (tick (took (r e)) e w))
    end.

(** Lines 175-176. *)
Definition store_counters (repository_json : pyval) : M unit :=
  v <- lift (getitem repository_json "stargazers_count") ;;
  set_stars v ;;
  v <- lift (getitem repository_json "forks") ;;
  set_forks v.

(** What is left to do once the rest of the [try] body is [body]: the
    [except] clause if it raises an instance of [Exception], then line 183. *)
Definition conclude (body : M unit) : M unit :=
  try_except_Exception body
    (notify "Unable to update star count (maybe rate-limited)" "GitHub stars"
       (Some error)) ;;
  set_loading false.

Definition finished (r : result unit * world) : pc * world :=
  (Finished (fst r), snd r).

(** Run the coroutine from where it stands to its next suspension point, or
    to its end. *)
Definition resume (HTTPX_AVAILABLE : bool) (p : pc) (e : env) (w : world) : pc * world :=
  match p with
  | NotStarted =>
      if negb HTTPX_AVAILABLE then
        finished (notify install_message "GitHub Stars" None e w)
      else
        (AtSleep, snd ((set_loading true ;; suspend (Sleep 1)) e w))
  | AtSleep =>
      match resumed Delay (1 * 1000) sleep_reply e w with
      | (Ok _, w1) => (AtEnter, snd (suspend AEnter e w1))
      | (Raise tb x, w1) => finished (conclude (lift (Raise tb x)) e w1)
      end
  | AtEnter =>
      match resumed ClientOpen 0 aenter_reply e w with
      | (Ok _, w1) => (AtGet, snd (suspend (HttpGet repo_url) e w1))
      | (Raise tb x, w1) => finished (conclude (lift (Raise tb x)) e w1)
      end
  | AtGet =>
      let (body, w1) := (r <- resumed Request 0 get_reply ;; response_json r) e w in
      (AtExit body, snd (suspend AExit e w1))
  | AtExit body =>
      match resumed ClientClose 0 aexit_reply e w with
      | (Ok _, w1) =>
          finished (conclude (repository_json <- lift body ;;
                              store_counters repository_json) e w1)
      | (Raise tb x, w1) => finished (conclude (lift (Raise tb x)) e w1)
      end
  | Finished r => (Finished r, w)
  end.


(** The widget, the coroutines of the workers started so far, each with its
    own environment, and who did what: every event is kept with the worker
    that issued it and the widget as it was then, most recent first.  The
    pool keeps no clock. *)
Record pool : Type := mkPool {
  widget : StarCount;
  workers : list (env * pc);
  history : list (nat * StarCount * event)
}.

(** What the event loop does next: deliver an activation, whose worker will
    meet [e], or let worker [i] run to its next suspension point. *)
Inductive move : Type :=
| Activate (a : activation) (e : env)
| Wake (i : nat).

Fixpoint set_nth {A : Type} (i : nat) (x : A) (l : list A) : list A :=
  match l, i with
  | [], _ => []
  | _ :: rest, O => x :: rest
  | y :: rest, S j => y :: set_nth j x rest
  end.

Definition play (HTTPX_AVAILABLE : bool) (m : move) (P : pool) : pool :=
  match m with
  | Activate a e =>
      let (s, items) := handler_of a (widget P) in
      {| widget := s;
         workers := (workers P ++ map (fun _ : work_item => (e, NotStarted)) items)%list;
         history := history P |}
  | Wake i =>
      match nth_error (workers P) i with
      | None => P
      | Some (e, p) =>
          let (p', w') := resume HTTPX_AVAILABLE p e (start (widget P) 0) in
          {| widget := self w';
             workers := set_nth i (e, p') (workers P);
             history := (map (fun en => (i, seen en, what en)) (log w') ++ history P)%list |}
      end
  end.

Definition play_all (HTTPX_AVAILABLE : bool) (ms : list move) (P : pool) : pool :=
  fold_left (fun P m => play HTTPX_AVAILABLE m P) ms P.

(** What worker [i] did, in time order, each event with the value of
    [loading] it saw. *)
Definition seen_by (i : nat) (P : pool) : list (event * bool) :=
  map (fun ise => (snd ise, loading (snd (fst ise))))
    (filter (fun ise => Nat.eqb (fst (fst ise)) i) (rev (history P))).

Definition empty_pool (s : StarCount) : pool :=
  {| widget := s; workers := []; history := [] |}.

(** A second click while the first attempt sleeps; the first attempt then
    runs to its end before the second wakes up. *)
Definition overlapping_clicks : list move :=
  [Activate Clicked env_ok; Wake 0; Activate Clicked env_ok; Wake 1;
   Wake 0; Wake 0; Wake 0; Wake 0; Wake 1].


(** * Properties of the refresh worker *)

(** *** Sample runs *)

Example get_stars_ok_run :
  let w := snd (get_stars true env_ok (start StarCount_new 0)) in
  events w = [SetLoading true; Await (Sleep 1); Await AEnter; Await (HttpGet repo_url);
              Await AExit; SetStars (PyInt 42); SetForks (PyInt 7); SetLoading false]
  /\ self w = {| stars := PyInt 42; forks := PyInt 7; loading := false; tooltip := None |}
  /\ clock w = 1000%N.
Proof. repeat split. Qed.

Example get_stars_offline_run :
  let w := snd (get_stars true env_offline (start StarCount_new 0)) in
  events w = [SetLoading true; Await (Sleep 1); Await AEnter; Await (HttpGet repo_url);
              Await AExit; Notify error_notice; SetLoading false]
  /\ self w = StarCount_new.
Proof. repeat split. Qed.

Example get_stars_rate_limited_run :
  let w := snd (get_stars true env_rate_limited (start StarCount_new 0)) in
  failure env_rate_limited = Some (Subscript "stargazers_count", KeyError "stargazers_count")
  /\ notices w = [error_notice]
  /\ self w = StarCount_new.
Proof. repeat split. Qed.

(** Unfold the monad and split on every answer of the environment the
    control flow actually inspects. *)
Ltac unfold_worker :=
  unfold get_stars, attempt, try_except_Exception, async_with_AsyncClient,
    asyncio_sleep, client_get, response_json, set_loading, set_stars, set_forks,
    notify, await, bind, lift, emit, tick, update, getitem in *.

Ltac split_on_answers :=
  repeat (cbn -[N.add N.mul String.eqb] in *;
          match goal with
          | |- context [match gave ?r with _ => _ end] => destruct (gave r) eqn:?
          | |- context [match json ?r with _ => _ end] => destruct (json r) eqn:?
          | |- context [match ?j with PyNone => _ | _ => _ end] => destruct j
          | |- context [match dict_get ?i ?k with _ => _ end] => destruct (dict_get i k) eqn:?
          | |- context [if isinstance_Exception ?x then _ else _] =>
              destruct (isinstance_Exception x) eqn:?
          end);
  cbn -[N.add N.mul String.eqb] in *.

Ltac worker_cases := unfold_worker; split_on_answers.

Lemma some_eq {A} (a b : A) : Some a = Some b -> a = b.
Proof. congruence. Qed.

(** The outcome of the [try] body depends on the environment only. *)
Lemma attempt_outcome (e : env) (w1 w2 : world) :
  fst (attempt e w1) = fst (attempt e w2).
Proof. worker_cases; reflexivity. Qed.

Lemma failure_at (e : env) (w : world) :
  failure e = match fst (attempt e w) with
              | Ok _ => None
              | Raise tb x => Some (tb, x)
              end.
Proof.
  unfold failure. now rewrite (attempt_outcome e (start StarCount_new 0) w).
Qed.

(** Started on a world that already has a log, [get_stars] does what it does
    on an empty log and puts its entries on top. *)
Lemma get_stars_frame (avail : bool) (e : env) (w : world) :
  get_stars avail e w =
  let (r, w') := get_stars avail e (start (self w) (clock w)) in
  (r, {| self := self w'; clock := clock w'; log := log w' ++ log w |}).
Proof. destruct avail; worker_cases; reflexivity. Qed.

(** *** Failure path *)




(** *** Success path *)

(** C2.  With httpx available, when the fetch goes through and the body is a
    mapping whose [stargazers_count] and [forks] are integers, [get_stars]
    returns with [stars] and [forks] set to those integers and [loading]
    false.  The two assignments follow each other with no suspension point in
    between: every suspension point of the attempt still sees both old
    values. *)
Theorem successful_refresh_maps_fields
    (e : env) (s : StarCount) (t : N) (items : list (string * pyval)) (sc fk : Z) :
  fetched e = Some (PyDict items) ->
  dict_get items "stargazers_count" = Some (PyInt sc) ->
  dict_get items "forks" = Some (PyInt fk) ->
  let w' := snd (get_stars true e (start s t)) in
  fst (get_stars true e (start s t)) = Ok tt /\
  stars (self w') = PyInt sc /\
  forks (self w') = PyInt fk /\
  loading (self w') = false /\
  events w' = [SetLoading true; Await (Sleep 1); Await AEnter; Await (HttpGet repo_url);
               Await AExit; SetStars (PyInt sc); SetForks (PyInt fk); SetLoading false] /\
  Forall (fun en => is_await (what en) = true ->
                    stars (seen en) = stars s /\ forks (seen en) = forks s)
         (trace w').
Proof.
  unfold fetched. intros Hf Hs Hk.
  destruct (gave (sleep_reply e)) eqn:Hsleep; try discriminate.
  destruct (gave (aenter_reply e)) eqn:Henter; try discriminate.
  destruct (gave (get_reply e)) as [r|] eqn:Hget; try discriminate.
  destruct (gave (aexit_reply e)) eqn:Hexit; try discriminate.
  destruct (json r) as [j|] eqn:Hjson; try discriminate.
  injection Hf as ->.
  unfold_worker. cbn -[N.add N.mul String.eqb].
  rewrite Hsleep, Henter, Hget, Hexit. cbn -[N.add N.mul String.eqb].
  rewrite Hjson, Hs. cbn -[N.add N.mul String.eqb]. rewrite Hk.
  cbn -[N.add N.mul String.eqb].
  repeat split; repeat constructor; cbn; intros; try discriminate; reflexivity.
Qed.

Lemma successful_refresh_maps_fields_witness :
  let w' := snd (get_stars true env_ok (start StarCount_new 0)) in
  fst (get_stars true env_ok (start StarCount_new 0)) = Ok tt /\
  stars (self w') = PyInt 42 /\
  forks (self w') = PyInt 7 /\
  loading (self w') = false /\
  events w' = [SetLoading true; Await (Sleep 1); Await AEnter; Await (HttpGet repo_url);
               Await AExit; SetStars (PyInt 42); SetForks (PyInt 7); SetLoading false] /\
  Forall (fun en => is_await (what en) = true ->
                    stars (seen en) = stars StarCount_new /\
                    forks (seen en) = forks StarCount_new)
         (trace w').
Proof.
  apply (successful_refresh_maps_fields env_ok StarCount_new 0
           [("stargazers_count", PyInt 42); ("forks", PyInt 7)] 42 7); reflexivity.
Defined.

(** *** Missing capability *)

(** C3.  Without httpx, [get_stars] returns at once: no suspension point is
    reached and no time passes, the widget (both counters and [loading]) is
    left as it was, [loading] is never assigned, and the only event is one
    notice of severity [information]. *)
Theorem refresh_without_httpx_only_notifies (e : env) (s : StarCount) (t : N) :
  let w' := snd (get_stars false e (start s t)) in
  fst (get_stars false e (start s t)) = Ok tt /\
  self w' = s /\
  clock w' = t /\
  events w' = [Notify install_notice] /\
  severity install_notice = information.
Proof. repeat split. Qed.

(** *** The loading flag *)



(** *** Exceptions at the boundary *)

(** C5, as amended.  Whatever the environment answers, [get_stars] lets no
    instance of [Exception] escape: such a failure of the attempt is caught
    and turned into exactly one error notice, and [get_stars] returns.  An
    exception outside the [Exception] hierarchy is not caught: it propagates
    to the caller and no notice is emitted.  Without httpx nothing can be
    raised. *)
Theorem refresh_catches_Exception (avail : bool) (e : env) (s : StarCount) (t : N) :
  let r := get_stars avail e (start s t) in
  if avail then
    match failure e with
    | None => fst r = Ok tt /\ notices (snd r) = []
    | Some (tb, x) =>
        if isinstance_Exception x
        then fst r = Ok tt /\ notices (snd r) = [error_notice]
        else fst r = Raise tb x /\ notices (snd r) = []
    end
  else fst r = Ok tt.
Proof.
  destruct avail; [ | reflexivity ].
  rewrite (failure_at e (snd (set_loading true e (start s t)))).
  worker_cases; try discriminate; split; reflexivity.
Qed.

(** C5 as stated fails: a cancellation raised by the delay leaves
    [get_stars] uncaught, and no notice is emitted. *)
Lemma refresh_propagates_counterexample :
  let r := get_stars true env_cancelled (start StarCount_new 0) in
  fst r = Raise Delay CancelledError /\
  fst r <> Ok tt /\
  notices (snd r) = [].
Proof. repeat split. discriminate. Qed.

(** *** The delay *)

(** Exactly one GET is issued when the delay is over and the client opens,
    none otherwise. *)
Lemma get_issued_at_most_once (e : env) (s : StarCount) (t : N) :
  List.length (filter is_get (events (snd (get_stars true e (start s t))))) =
  match gave (sleep_reply e), gave (aenter_reply e) with
  | Gives _, Gives _ => 1%nat
  | _, _ => 0%nat
  end.
Proof. worker_cases; reflexivity. Qed.

(** C6.  With httpx available, whenever the GET is issued (the [i]-th entry
    of the trace), the trace starts with the assignment [loading = True]
    followed by the one-second sleep, which sees [loading] true; the GET comes
    strictly later in the trace, and at least 1000 ms after the start. *)
Theorem delay_precedes_get (e : env) (s : StarCount) (t : N) (i : nat) (g : entry) :
  nth_error (trace (snd (get_stars true e (start s t)))) i = Some g ->
  is_get (what g) = true ->
  exists l sl,
    nth_error (trace (snd (get_stars true e (start s t)))) 0 = Some l /\
    nth_error (trace (snd (get_stars true e (start s t)))) 1 = Some sl /\
    what l = SetLoading true /\ at_ms l = t /\
    what sl = Await (Sleep 1) /\ loading (seen sl) = true /\
    (1 < i)%nat /\
    (at_ms l + 1000 <= at_ms g)%N /\
    what g = Await (HttpGet repo_url).
Proof.
  remember (get_stars true e (start s t)) as r eqn:R.
  intros Hn Hg. revert R.
  worker_cases; intros ->;
    (do 2 (destruct i as [|i];
           [cbn in Hn; apply some_eq in Hn; subst g; discriminate Hg | ]));
    (do 2 eexists; repeat (split; [reflexivity | ]));
    (split; [lia | ]);
    repeat (destruct i as [|i];
            [cbn -[N.add N.mul] in Hn; apply some_eq in Hn; subst g;
             first [ discriminate Hg
                   | cbn -[N.add N.mul]; split; [lia | reflexivity] ] | ]);
    destruct i; discriminate Hn.
Qed.

Lemma delay_precedes_get_witness :
  exists l sl,
    nth_error (trace (snd (get_stars true env_ok (start StarCount_new 5)))) 0 = Some l /\
    nth_error (trace (snd (get_stars true env_ok (start StarCount_new 5)))) 1 = Some sl /\
    what l = SetLoading true /\ at_ms l = 5%N /\
    what sl = Await (Sleep 1) /\ loading (seen sl) = true /\
    (1 < 3)%nat /\
    (at_ms l + 1000 <= 1005)%N /\
    Await (HttpGet repo_url) = Await (HttpGet repo_url).
Proof.
  apply (delay_precedes_get env_ok StarCount_new 5 3
           {| at_ms := 1005;
              seen := {| stars := PyInt 25251; forks := PyInt 776; loading := true;
                         tooltip := None |};
              what := Await (HttpGet repo_url) |}); reflexivity.
Defined.

(** *** Construction *)

(** C7.  A new [StarCount] has [stars = 25251] and [forks = 776], and still
    has them when [on_mount] has scheduled the first refresh but the worker
    has not run. *)
Theorem new_widget_has_defaults :
  stars StarCount_new = PyInt 25251 /\
  forks StarCount_new = PyInt 776 /\
  stars (fst (on_mount StarCount_new)) = PyInt 25251 /\
  forks (fst (on_mount StarCount_new)) = PyInt 776.
Proof. repeat split. Qed.

(** *** Who changes the counters *)

(** The handlers and the branch taken without httpx leave both counters
    alone. *)
Lemma handlers_keep_counters (s : StarCount) (e : env) (t : N) :
  stars (fst (on_mount s)) = stars s /\ forks (fst (on_mount s)) = forks s /\
  stars (fst (on_click s)) = stars s /\ forks (fst (on_click s)) = forks s /\
  stars (self (snd (get_stars false e (start s t)))) = stars s /\
  forks (self (snd (get_stars false e (start s t)))) = forks s.
Proof. repeat split. Qed.

(** C8 fails on the code.  The body [{"stargazers_count": 42}] sends
    [get_stars] down the failure branch (the lookup of [forks] raises
    [KeyError], the error notice is emitted), yet [stars] has already been
    assigned: it is 42 and no longer 25251, while [forks] is still 776. *)
Theorem failure_branch_changes_stars :
  let r := get_stars true env_no_forks (start StarCount_new 0) in
  failure env_no_forks = Some (Subscript "forks", KeyError "forks") /\
  fst r = Ok tt /\
  notices (snd r) = [error_notice] /\
  events (snd r) = [SetLoading true; Await (Sleep 1); Await AEnter; Await (HttpGet repo_url);
                    Await AExit; SetStars (PyInt 42); Notify error_notice;
                    SetLoading false] /\
  stars (self (snd r)) = PyInt 42 /\
  stars (self (snd r)) <> stars StarCount_new /\
  forks (self (snd r)) = PyInt 776.
Proof. repeat split. discriminate. Qed.

Lemma activate_runs_get_stars (avail : bool) (a : activation) (e : env) (w : world) :
  activate avail (handler_of a) e w =
  snd (get_stars avail e
         {| self := fst (handler_of a (self w)); clock := clock w; log := log w |}).
Proof. destruct a; reflexivity. Qed.




(** * Properties of the key panel *)

(** ** [first_per_action] keeps one binding per action, the first *)

Lemma filter_filter {A} (p q : A -> bool) (l : list A) :
  filter p (filter q l) = filter (fun x => q x && p x) l.
Proof.
  induction l as [|x l IH]; cbn; [reflexivity | ].
  destruct (q x); cbn; [destruct (p x) | ]; now rewrite IH.
Qed.

Lemma find_action_filter_other (a k : string) (bs : list Binding) :
  a <> k ->
  find_action a (filter (fun b' => negb (String.eqb (action b') k)) bs) = find_action a bs.
Proof.
  intros Hak. unfold find_action, has_action.
  induction bs as [|b bs IH]; cbn; [reflexivity | ].
  destruct (String.eqb_spec (action b) k) as [E|E]; cbn.
  - destruct (String.eqb_spec (action b) a); [congruence | exact IH].
  - destruct (String.eqb (action b) a); [reflexivity | exact IH].
Qed.

Lemma count_action_filter_other (a k : string) (bs : list Binding) :
  a <> k ->
  count_action a (filter (fun b' => negb (String.eqb (action b') k)) bs) = count_action a bs.
Proof.
  intros Hak. unfold count_action, has_action.
  induction bs as [|b bs IH]; cbn; [reflexivity | ].
  destruct (String.eqb_spec (action b) k) as [E|E]; cbn.
  - destruct (String.eqb_spec (action b) a); [congruence | exact IH].
  - destruct (String.eqb (action b) a); cbn; now rewrite IH.
Qed.

Lemma count_action_filter_same (a : string) (bs : list Binding) :
  count_action a (filter (fun b' => negb (String.eqb (action b') a)) bs) = 0%nat.
Proof.
  unfold count_action, has_action.
  induction bs as [|b bs IH]; cbn; [reflexivity | ].
  destruct (String.eqb (action b) a) eqn:E; cbn; [exact IH | ].
  now rewrite E.
Qed.

Lemma count_action_cons (a : string) (b : Binding) (bs : list Binding) :
  count_action a (b :: bs) =
  if has_action a b then S (count_action a bs) else count_action a bs.
Proof. unfold count_action. cbn. now destruct (has_action a b). Qed.

Lemma find_action_cons (a : string) (b : Binding) (bs : list Binding) :
  find_action a (b :: bs) = if has_action a b then Some b else find_action a bs.
Proof. reflexivity. Qed.

Lemma find_first_per_action (a : string) (bs : list Binding) :
  find_action a (first_per_action bs) = find_action a bs.
Proof.
  induction bs as [|b bs IH]; [reflexivity | ].
  cbn [first_per_action]. rewrite !find_action_cons.
  destruct (has_action a b) eqn:E; [reflexivity | ].
  rewrite <- IH. apply find_action_filter_other.
  unfold has_action in E. apply String.eqb_neq in E. congruence.
Qed.

Lemma count_first_per_action (a : string) (bs : list Binding) :
  count_action a (first_per_action bs) =
  if existsb (has_action a) bs then 1%nat else 0%nat.
Proof.
  induction bs as [|b bs IH]; [reflexivity | ].
  cbn [first_per_action existsb]. rewrite count_action_cons.
  destruct (has_action a b) eqn:E; cbn [orb].
  - unfold has_action in E. apply String.eqb_eq in E. subst a.
    f_equal. apply count_action_filter_same.
  - rewrite <- IH. apply count_action_filter_other.
    unfold has_action in E. apply String.eqb_neq in E. congruence.
Qed.

Lemma incl_first_per_action (bs : list Binding) :
  incl (first_per_action bs) bs.
Proof.
  induction bs as [|b bs IH]; [easy | ].
  intros x [<- | Hx]; [now left | right].
  apply filter_In in Hx. apply IH, Hx.
Qed.

(** ** [groupby] cuts the list into maximal runs *)

Lemma groupby_concat {A K} (eqb : K -> K -> bool) (keyf : A -> K) (l : list A) :
  List.concat (map snd (groupby eqb keyf l)) = l.
Proof.
  induction l as [|x l IH]; [reflexivity | ].
  cbn [groupby]. destruct (groupby eqb keyf l) as [|[k g] gs]; cbn in *.
  - now subst l.
  - destruct (eqb (keyf x) k); cbn; now rewrite IH.
Qed.

Lemma groupby_groups_nonempty {A K} (eqb : K -> K -> bool) (keyf : A -> K) (l : list A) :
  Forall (fun kg => snd kg <> []) (groupby eqb keyf l).
Proof.
  induction l as [|x l IH]; [constructor | ].
  cbn [groupby]. destruct (groupby eqb keyf l) as [|[k g] gs].
  - repeat constructor. easy.
  - destruct (eqb (keyf x) k).
    + inversion IH; subst. constructor; [easy | assumption].
    + constructor; [easy | assumption].
Qed.

(** Every item of a run has the run's key. *)
Lemma groupby_group_keys (l : list ActiveBinding) :
  Forall (fun kg => Forall (fun ab => itemgetter_0 ab = fst kg) (snd kg))
         (groupby Nat.eqb itemgetter_0 l).
Proof.
  induction l as [|x l IH]; [constructor | ].
  cbn [groupby]. destruct (groupby Nat.eqb itemgetter_0 l) as [|[k g] gs].
  - repeat constructor.
  - destruct (Nat.eqb_spec (itemgetter_0 x) k) as [E|E].
    + inversion IH as [|? ? Hg Hgs]; subst. constructor; [ | exact Hgs].
      cbn [fst snd] in *. constructor; [reflexivity | exact Hg].
    + constructor; [repeat constructor | assumption].
Qed.

Lemma groupby_runs_maximal (l : list ActiveBinding) :
  adjacent_differ (map fst (groupby Nat.eqb itemgetter_0 l)) = true.
Proof.
  induction l as [|x l IH]; [reflexivity | ].
  cbn [groupby]. destruct (groupby Nat.eqb itemgetter_0 l) as [|[k g] gs]; [reflexivity | ].
  destruct (Nat.eqb (itemgetter_0 x) k) eqn:E; [exact IH | ].
  cbn [map fst adjacent_differ] in *. now rewrite E, IH.
Qed.

Lemma tidy_nil : tidy [].
Proof. split; [constructor | reflexivity]. Qed.

Lemma tidy_cons_inv k vs d :
  tidy ((k, vs) :: d) ->
  exists b en tt rest, vs = (b, en, tt) :: rest /\ action b = k /\ tidy d.
Proof.
  intros [Hne Hk]. inversion Hne as [|? ? Hvs Hd]; subst.
  destruct vs as [|[[b en] tt] rest]; [now cbn in Hvs | ].
  cbn in Hk. injection Hk as Hb Hk.
  exists b, en, tt, rest. repeat split; assumption.
Qed.

Lemma heads_cons k b en tt rest d :
  heads ((k, (b, en, tt) :: rest) :: d) = b :: heads d.
Proof. reflexivity. Qed.

Lemma tidy_cons k (b : Binding) (en : bool) (tt : string) rest d :
  action b = k -> tidy d -> tidy ((k, (b, en, tt) :: rest) :: d).
Proof.
  intros Hb [Hne Hm]. split.
  - constructor; [easy | exact Hne].
  - rewrite heads_cons. cbn [map fst]. now rewrite Hb, Hm.
Qed.

Lemma append_known_key d (b : Binding) (en : bool) (tt : string) :
  tidy d -> has_key d (action b) = true ->
  let d' := defaultdict_append d (action b) (b, en, tt) in
  tidy d' /\ heads d' = heads d /\ map fst d' = map fst d.
Proof.
  induction d as [|[k vs] d IH]; intros Ht Hk; [discriminate Hk | ].
  destruct (tidy_cons_inv _ _ _ Ht) as (b0 & en0 & tt0 & rest & -> & Hb0 & Htd).
  cbn [defaultdict_append]. unfold has_key in Hk. cbn [map fst existsb] in Hk.
  rewrite String.eqb_sym in Hk.
  destruct (String.eqb k (action b)) eqn:E; cbv zeta.
  - change (((b0, en0, tt0) :: rest) ++ [(b, en, tt)])%list
      with ((b0, en0, tt0) :: (rest ++ [(b, en, tt)]))%list.
    rewrite !heads_cons. split; [ | split; reflexivity].
    now apply tidy_cons.
  - cbn [orb] in Hk. destruct (IH Htd Hk) as (Htd' & Hh & Hf).
    rewrite !heads_cons. cbn [map fst]. rewrite Hh, Hf.
    split; [ | split; reflexivity].
    now apply tidy_cons.
Qed.

Lemma append_new_key d (b : Binding) (en : bool) (tt : string) :
  tidy d -> has_key d (action b) = false ->
  let d' := defaultdict_append d (action b) (b, en, tt) in
  tidy d' /\ heads d' = (heads d ++ [b])%list /\
  map fst d' = (map fst d ++ [action b])%list.
Proof.
  induction d as [|[k vs] d IH]; intros Ht Hk.
  - cbn [defaultdict_append]. cbv zeta. split; [ | split; reflexivity].
    apply tidy_cons; [reflexivity | apply tidy_nil].
  - destruct (tidy_cons_inv _ _ _ Ht) as (b0 & en0 & tt0 & rest & -> & Hb0 & Htd).
    cbn [defaultdict_append]. unfold has_key in Hk. cbn [map fst existsb] in Hk.
    rewrite String.eqb_sym in Hk.
    destruct (String.eqb k (action b)) eqn:E; [discriminate Hk | ].
    cbn [orb] in Hk. destruct (IH Htd Hk) as (Htd' & Hh & Hf). cbv zeta.
    rewrite !heads_cons. cbn [map fst]. rewrite Hh, Hf.
    split; [ | split; reflexivity].
    now apply tidy_cons.
Qed.

Lemma has_key_same_keys d d' a :
  map fst d' = map fst d -> has_key d' a = has_key d a.
Proof. unfold has_key. now intros ->. Qed.

Lemma has_key_new_key d d' k a :
  map fst d' = (map fst d ++ [k])%list ->
  has_key d' a = has_key d a || String.eqb a k.
Proof.
  unfold has_key. intros ->. rewrite existsb_app. cbn. now rewrite orb_false_r.
Qed.

(** Filling the dictionary from [g] adds, after the heads already there, the
    first binding of every action of [g] that had no key yet. *)
Lemma heads_fold_record (g : list ActiveBinding) :
  forall d, tidy d ->
    tidy (fold_left record_binding g d) /\
    heads (fold_left record_binding g d) =
    (heads d ++ filter (fun b => negb (has_key d (action b)))
                  (first_per_action (map binding_of g)))%list.
Proof.
  induction g as [|[[[ns b] en] tt] g IH]; intros d Ht.
  - cbn. now rewrite app_nil_r.
  - cbn [fold_left map binding_of first_per_action record_binding filter].
    destruct (has_key d (action b)) eqn:Hk; cbn [negb].
    + destruct (append_known_key d b en tt Ht Hk) as (Ht' & Hh & Hf).
      destruct (IH _ Ht') as [Ht'' Hheads]. split; [exact Ht'' | ].
      rewrite Hheads, Hh. f_equal. rewrite filter_filter.
      apply filter_ext. intros x. rewrite (has_key_same_keys _ _ _ Hf).
      destruct (String.eqb_spec (action x) (action b)) as [E|E]; [ | reflexivity].
      rewrite E, Hk. reflexivity.
    + destruct (append_new_key d b en tt Ht Hk) as (Ht' & Hh & Hf).
      destruct (IH _ Ht') as [Ht'' Hheads]. split; [exact Ht'' | ].
      rewrite Hheads, Hh, <- app_assoc. cbn [app]. do 2 f_equal.
      rewrite filter_filter. apply filter_ext. intros x.
      rewrite (has_key_new_key _ _ _ _ Hf), negb_orb. apply andb_comm.
Qed.

Lemma filter_true {A} (l : list A) : filter (fun _ => true) l = l.
Proof. induction l as [|x l IH]; cbn; [reflexivity | now rewrite IH]. Qed.

(** The dictionary of a run is tidy and its heads are the first bindings
    of the run's actions. *)
Lemma action_to_bindings_heads (g : list ActiveBinding) :
  tidy (action_to_bindings g) /\
  heads (action_to_bindings g) = first_per_action (map binding_of g).
Proof.
  destruct (heads_fold_record g [] tidy_nil) as [Ht Hh].
  split; [exact Ht | ].
  change (action_to_bindings g) with (fold_left record_binding g []).
  rewrite Hh. cbn [heads flat_map app]. apply filter_true.
Qed.

(** ** Rows and sections *)

Lemma section_rows_snoc (cs : list (Text * Text)) (c : Text * Text) :
  section_rows (cs ++ [c]) = (plain_rows cs ++ [{| cells := c; end_section := true |}])%list.
Proof.
  induction cs as [|c0 cs IH]; [reflexivity | ].
  cbn [app plain_rows map]. fold (plain_rows cs). rewrite <- IH.
  cbn [section_rows]. destruct (cs ++ [c])%list eqn:E; [ | reflexivity].
  now destruct cs.
Qed.

Lemma plain_rows_app (cs1 cs2 : list (Text * Text)) :
  plain_rows (cs1 ++ cs2) = (plain_rows cs1 ++ plain_rows cs2)%list.
Proof. apply map_app. Qed.

(** [add_section] after the rows [cs] of a run turns them into a section. *)
Lemma add_section_closes (table : Table) (before : list Row) (cs : list (Text * Text)) :
  rows table = (before ++ plain_rows cs)%list -> cs <> [] ->
  rows (add_section table) = (before ++ section_rows cs)%list.
Proof.
  intros Hrows Hcs. unfold add_section. cbn [rows].
  destruct (rev cs) as [|c front] eqn:E.
  - apply (f_equal (@rev _)) in E. rewrite rev_involutive in E. now cbn in E.
  - apply (f_equal (@rev _)) in E. rewrite rev_involutive in E. cbn [rev] in E.
    subst cs. rewrite Hrows, plain_rows_app, section_rows_snoc.
    cbn [plain_rows map]. rewrite app_assoc, rev_app_distr. cbn [rev app].
    rewrite rev_involutive. now rewrite <- app_assoc.
Qed.

Lemma add_rows_rows (cs : list (Text * Text)) :
  forall table, rows (add_rows cs table) = (rows table ++ plain_rows cs)%list.
Proof.
  induction cs as [|[k d] cs IH]; intros table.
  - cbn. now rewrite app_nil_r.
  - change (add_rows ((k, d) :: cs) table) with (add_rows cs (add_row table k d)).
    rewrite IH. cbn [add_row rows plain_rows map]. now rewrite <- app_assoc.
Qed.

Lemma section_rows_marks (cs : list (Text * Text)) :
  map cells_and_end (section_rows cs) = mark_last (map Some cs).
Proof.
  induction cs as [|c cs IH]; [reflexivity | ].
  destruct cs as [|c' cs]; [reflexivity | ].
  change (section_rows (c :: c' :: cs))
    with ({| cells := c; end_section := false |} :: section_rows (c' :: cs)).
  change (mark_last (map Some (c :: c' :: cs)))
    with ((Some c, false) :: mark_last (map Some (c' :: cs))).
  now rewrite <- IH.
Qed.

Lemma map_fst_mark_last {A} (l : list A) : map fst (mark_last l) = l.
Proof.
  induction l as [|x l IH]; [reflexivity | ].
  destruct l as [|y l]; [reflexivity | ].
  change (mark_last (x :: y :: l)) with ((x, false) :: mark_last (y :: l)).
  cbn [map fst]. now rewrite IH.
Qed.

(** [cells_of] gives the rows of all the bindings or, when one of them
    cannot be rendered, none. *)
Lemma cells_of_spec (row : Binding -> option (Text * Text)) (bs : list Binding) :
  match cells_of row bs with
  | Some cs =>
      forallb (fun b => is_some (row b)) bs = true /\ map Some cs = map row bs
  | None => forallb (fun b => is_some (row b)) bs = false
  end.
Proof.
  induction bs as [|b bs IH]; cbn [cells_of forallb map]; [now split | ].
  destruct (row b) as [c|]; cbn [is_some andb]; [ | reflexivity].
  destruct (cells_of row bs) as [cs|]; cbn [option_map]; [ | exact IH].
  destruct IH as [Hall Hmap]. split; [exact Hall | ]. cbn [map]. now rewrite Hmap.
Qed.

(** The rows of the table that [render_runs] builds, or [MarkupError] when
    a binding it shows cannot be rendered. *)
Lemma render_runs_rows (row : Binding -> option (Text * Text))
    (runs : list (Node * list Binding)) :
  Forall (fun r => snd r <> []) runs ->
  forall table,
    if forallb (fun b => is_some (row b))
         (flat_map (fun r => first_per_action (snd r)) runs)
    then exists table',
        render_runs row runs table = Done table' /\
        map cells_and_end (rows table') =
        (map cells_and_end (rows table)
         ++ flat_map (fun r => mark_last (map row (first_per_action (snd r)))) runs)%list
    else render_runs row runs table = Raises MarkupError.
Proof.
  intros H. induction H as [|[k bs] runs Hbs _ IH]; intros table.
  - cbn. exists table. split; [reflexivity | now rewrite app_nil_r].
  - cbn [flat_map snd render_runs] in *. rewrite forallb_app.
    pose proof (cells_of_spec row (first_per_action bs)) as Hcells.
    destruct (cells_of row (first_per_action bs)) as [cs|].
    + destruct Hcells as [Hall Hmap]. rewrite Hall. cbn [andb].
      assert (Hcs : cs <> []).
      { destruct bs as [|b bs]; [easy | ]. cbn [first_per_action map] in Hmap.
        now destruct cs. }
      specialize (IH (add_section (add_rows cs table))).
      destruct (forallb _ (flat_map _ runs)); [ | exact IH].
      destruct IH as (table' & Hrun & Hrows). exists table'.
      split; [exact Hrun | ].
      rewrite Hrows.
      rewrite (add_section_closes _ (rows table) cs (add_rows_rows cs table) Hcs).
      now rewrite map_app, section_rows_marks, Hmap, <- app_assoc.
    + now rewrite Hcells.
Qed.

Lemma flat_map_runs {C} (F : list Binding -> list C) (groups : list (Node * list ActiveBinding)) :
  flat_map (fun kg => F (map binding_of (snd kg))) groups =
  flat_map (fun kb => F (snd kb))
    (map (fun kg => (fst kg, map binding_of (snd kg))) groups).
Proof.
  induction groups as [|[k g] groups IH]; [reflexivity | ].
  cbn. now rewrite IH.
Qed.

Lemma flat_map_shown {C} (F : Binding -> C) (groups : list (Node * list ActiveBinding)) :
  flat_map (fun kg => map F (first_per_action (map binding_of (snd kg)))) groups =
  map (fun nb => F (snd nb))
    (flat_map
       (fun kg => map (pair (fst kg)) (first_per_action (map binding_of (snd kg))))
       groups).
Proof.
  induction groups as [|[k g] groups IH]; [reflexivity | ].
  cbn [flat_map snd fst]. rewrite map_app, map_map, IH. reflexivity.
Qed.

Lemma map_fst_marked_runs {C} (F : list Binding -> list C)
    (groups : list (Node * list ActiveBinding)) :
  map fst (flat_map (fun kg => mark_last (F (map binding_of (snd kg)))) groups) =
  flat_map (fun kg => F (map binding_of (snd kg))) groups.
Proof.
  induction groups as [|[k g] groups IH]; [reflexivity | ].
  cbn [flat_map snd]. now rewrite map_app, map_fst_mark_last, IH.
Qed.

Section BindingsTableFacts.

Variable get_component_rich_style : string -> string.
Variable get_key_display : Binding -> string.
Variable from_markup : string -> string -> option Text.

Local Abbreviation key_style := (get_component_rich_style "bindings-table--key").
Local Abbreviation description_style :=
  (get_component_rich_style "bindings-table--description").
Local Abbreviation row := (row_of get_component_rich_style get_key_display from_markup).
Local Abbreviation render_table :=
  (render_bindings_table get_component_rich_style get_key_display from_markup).

(** On a dictionary without empty lists the row loop never raises
    [IndexError]: it adds the rows of the heads, in order, or raises
    [MarkupError] and adds none that can be seen. *)
Lemma add_binding_rows_exact d :
  Forall (fun item => snd item <> []) d ->
  forall table,
    add_binding_rows get_key_display from_markup key_style description_style d table
    = match cells_of row (heads d) with
      | Some cs => Done (add_rows cs table)
      | None => Raises MarkupError
      end.
Proof.
  unfold add_binding_rows.
  induction d as [|[k vs] d IH]; intros Hne table; [reflexivity | ].
  inversion Hne as [|? ? Hvs Hd]; subst.
  destruct vs as [|[[b en] tt] rest]; [now cbn in Hvs | ].
  rewrite heads_cons. cbn [fold_left snd cells_of]. unfold row_of at 1.
  destruct (render_description from_markup description_style b) as [dsc|].
  - rewrite (IH Hd). now destruct (cells_of row (heads d)).
  - clear. induction d as [|item d IH]; [reflexivity | exact IH].
Qed.

Lemma render_group_exact table previous_namespace namespace g :
  g <> [] ->
  option_node_eqb (Some namespace) previous_namespace = false ->
  render_group get_component_rich_style get_key_display from_markup
    (table, previous_namespace) (namespace, g)
  = match cells_of row (first_per_action (map binding_of g)) with
    | Some cs => Done (add_section (add_rows cs table), Some namespace)
    | None => Raises MarkupError
    end.
Proof.
  intros Hg Hprev. destruct g as [|ab g']; [easy | ].
  destruct (action_to_bindings_heads (ab :: g')) as [[Hne _] Hh].
  unfold render_group. cbv beta iota zeta.
  rewrite (add_binding_rows_exact _ Hne), Hh, Hprev.
  now destruct (cells_of row (first_per_action (map binding_of (ab :: g')))).
Qed.

(** The loop over the runs is [render_runs]. *)
Lemma render_groups_exact groups :
  forall table previous_namespace,
    Forall (fun kg => snd kg <> []) groups ->
    adjacent_differ (map fst groups) = true ->
    match groups with
    | [] => True
    | g :: _ => option_node_eqb (Some (fst g)) previous_namespace = false
    end ->
    match
      fold_left
        (fun acc group =>
           match acc with
           | Raises err => Raises err
           | Done state =>
               render_group get_component_rich_style get_key_display from_markup
                 state group
           end)
        groups (Done (table, previous_namespace))
    with
    | Done (table', _) => Done table'
    | Raises err => Raises err
    end
    = render_runs row (map (fun kg => (fst kg, map binding_of (snd kg))) groups) table.
Proof.
  induction groups as [|[namespace g] groups IH];
    intros table previous_namespace Hne Hadj Hhead; [reflexivity | ].
  inversion Hne as [|? ? Hg Hne']; subst. cbn [fst snd] in *.
  cbn [fold_left map render_runs fst snd].
  rewrite (render_group_exact _ _ _ _ Hg Hhead).
  destruct (cells_of row (first_per_action (map binding_of g))) as [cs|].
  - apply IH; [exact Hne' | | ].
    + destruct groups as [|[k2 g2] groups']; [reflexivity | ].
      cbn [map fst adjacent_differ] in Hadj.
      now apply andb_true_iff in Hadj.
    + destruct groups as [|[k2 g2] groups']; [exact I | ].
      cbn [map fst adjacent_differ] in Hadj. apply andb_true_iff in Hadj.
      destruct Hadj as [Hk _]. cbn [fst option_node_eqb].
      rewrite Nat.eqb_sym. now apply negb_true_iff in Hk.
  - clear. induction groups as [|group groups IH]; [reflexivity | exact IH].
Qed.

(** The whole table, run by run. *)
Lemma render_bindings_table_runs (bindings : list ActiveBinding) :
  render_table bindings
  = render_runs row (runs_of bindings)
      (add_column
         {| border_style := get_component_rich_style "bindings-table--divider";
            columns := []; rows := [] |}
         "" "right").
Proof.
  unfold render_bindings_table, runs_of.
  apply render_groups_exact.
  - apply groupby_groups_nonempty.
  - apply groupby_runs_maximal.
  - now destruct (groupby Nat.eqb itemgetter_0 bindings) as [|[k g] gs].
Qed.

Lemma row_of_parses (b : Binding) :
  is_some (row b) = is_some (from_markup (description b) description_style).
Proof.
  unfold row_of, render_description.
  now destruct (from_markup (description b) description_style).
Qed.

Lemma well_marked_runs (bindings : list ActiveBinding) :
  well_marked get_component_rich_style from_markup bindings =
  forallb (fun b => is_some (row b))
    (flat_map (fun r => first_per_action (snd r)) (runs_of bindings)).
Proof.
  unfold well_marked, shown_bindings, runs_of.
  induction (groupby Nat.eqb itemgetter_0 bindings) as [|[k g] groups IH];
    [reflexivity | ].
  cbn [flat_map map fst snd]. rewrite !forallb_app. f_equal; [ | exact IH].
  induction (first_per_action (map binding_of g)) as [|b bs IHb]; [reflexivity | ].
  cbn [map forallb snd]. now rewrite IHb, row_of_parses.
Qed.

(** The rows of the table with their section breaks, or [MarkupError]. *)
Lemma render_bindings_table_rows (bindings : list ActiveBinding) :
  if well_marked get_component_rich_style from_markup bindings
  then exists table,
      render_table bindings = Done table /\
      map cells_and_end (rows table) =
      flat_map
        (fun kg => mark_last (map row (first_per_action (map binding_of (snd kg)))))
        (groupby Nat.eqb itemgetter_0 bindings)
  else render_table bindings = Raises MarkupError.
Proof.
  rewrite render_bindings_table_runs, well_marked_runs.
  assert (Hne : Forall (fun r : Node * list Binding => snd r <> []) (runs_of bindings)).
  { unfold runs_of. apply Forall_map.
    eapply Forall_impl; [ | apply groupby_groups_nonempty].
    intros [k g] Hg. cbn [snd] in *. now destruct g. }
  pose proof (render_runs_rows row (runs_of bindings) Hne
                (add_column
                   {| border_style := get_component_rich_style "bindings-table--divider";
                      columns := []; rows := [] |} "" "right")) as H.
  destruct (forallb _ _); [ | exact H].
  destruct H as (table & Hrun & Hrows). exists table. split; [exact Hrun | ].
  rewrite Hrows. cbn [add_column rows map app]. unfold runs_of.
  symmetry.
  apply (flat_map_runs (fun bs => mark_last (map row (first_per_action bs)))).
Qed.

(** The rows of the table are the rows of the shown bindings. *)
Lemma rows_of_shown_bindings (bindings : list ActiveBinding) :
  if well_marked get_component_rich_style from_markup bindings
  then exists table,
      render_table bindings = Done table /\
      map (fun r => Some (cells r)) (rows table) =
      map (fun nb => row (snd nb)) (shown_bindings bindings)
  else render_table bindings = Raises MarkupError.
Proof.
  pose proof (render_bindings_table_rows bindings) as H.
  destruct (well_marked _ _ _); [ | exact H].
  destruct H as (table & Hrun & Hrows). exists table. split; [exact Hrun | ].
  apply (f_equal (map fst)) in Hrows. rewrite map_map in Hrows.
  cbn [cells_and_end fst] in Hrows. rewrite Hrows.
  rewrite (map_fst_marked_runs (fun bs => map row (first_per_action bs))).
  apply (flat_map_shown row).
Qed.

End BindingsTableFacts.

(** ** Rows of the table *)

(** C10, as amended.  When the description of every binding the table shows
    is well-formed markup, [render_bindings_table] returns a table whose rows
    are, run after run of consecutive bindings with the same namespace (the
    groups [groupby] yields), the rows of the bindings [first_per_action]
    keeps; otherwise it raises [MarkupError] and returns no table.  For every
    action that occurs in a run exactly one binding is kept, the first of the
    run with that action, and a binding that is kept belongs to the run. *)
Theorem one_row_per_action_in_each_run
    (get_component_rich_style : string -> string)
    (get_key_display : Binding -> string)
    (from_markup : string -> string -> option Text)
    (bindings : list ActiveBinding) :
  (if well_marked get_component_rich_style from_markup bindings
   then exists table,
       render_bindings_table get_component_rich_style get_key_display from_markup
         bindings = Done table /\
       map (fun r => Some (cells r)) (rows table) =
       flat_map
         (fun group =>
            map (row_of get_component_rich_style get_key_display from_markup)
              (first_per_action (map binding_of (snd group))))
         (groupby Nat.eqb itemgetter_0 bindings)
   else render_bindings_table get_component_rich_style get_key_display from_markup
          bindings = Raises MarkupError) /\
  forall (run : list Binding) (a : string),
    count_action a (first_per_action run) =
      (if existsb (has_action a) run then 1%nat else 0%nat) /\
    find_action a (first_per_action run) = find_action a run /\
    incl (first_per_action run) run.
Proof.
  split.
  - pose proof (rows_of_shown_bindings get_component_rich_style get_key_display
                  from_markup bindings) as H.
    destruct (well_marked _ _ _); [ | exact H].
    destruct H as (table & Hrun & Hrows). exists table. split; [exact Hrun | ].
    rewrite Hrows. symmetry.
    apply (flat_map_shown
             (row_of get_component_rich_style get_key_display from_markup)).
  - intros run a. split; [apply count_first_per_action | split].
    + apply find_first_per_action.
    + apply incl_first_per_action.
Qed.

(** C10 as stated fails in two ways.  When a namespace comes in two runs:
    the bindings of node 1 with action [save] are [ctrl+s] and [f2], in that
    order, and the table has a row for each of them, not one row for the
    first.  And when a description is not well-formed markup: a single
    binding described as [[/b]Help] gets no row, as no table is returned. *)
Lemma interleaved_namespaces_counterexample :
  map binding_of (filter (in_namespace_with_action 1 "save") interleaved)
  = [save_ctrl_s; save_f2] /\
  (exists table,
      render_bindings_table style_by_name key plain_markup interleaved = Done table /\
      map (fun r => Some (cells r)) (rows table)
      = [row_of style_by_name key plain_markup save_ctrl_s;
         row_of style_by_name key plain_markup quit_q;
         row_of style_by_name key plain_markup save_f2]) /\
  row_of style_by_name key plain_markup save_f2
  = Some ([("f2", Some "bindings-table--key")],
          [("Save now", Some "bindings-table--description")]) /\
  row_of style_by_name key plain_markup save_f2
  <> row_of style_by_name key plain_markup save_ctrl_s /\
  render_bindings_table style_by_name key strict_markup
    [(1%nat, broken_help, true, "")] = Raises MarkupError.
Proof.
  split; [reflexivity | split; [ | split; [reflexivity | split]]].
  - eexists. split; reflexivity.
  - discriminate.
  - reflexivity.
Qed.

Example contiguous_namespaces_run :
  render_bindings_table style_by_name key plain_markup
    [(1%nat, save_ctrl_s, true, ""); (1%nat, save_f2, true, "");
     (2%nat, quit_q, true, "")]
  = Done
      {| border_style := "bindings-table--divider";
         columns := [("", "right"); ("", "left")];
         rows :=
           [{| cells := ([("ctrl+s", Some "bindings-table--key")],
                         [("Save", Some "bindings-table--description")]);
               end_section := true |};
            {| cells := ([("q", Some "bindings-table--key")],
                         [("Quit", Some "bindings-table--description")]);
               end_section := true |}] |}.
Proof. reflexivity. Qed.

(** A later binding with a broken description loses the rows already
    added: the exception leaves no table. *)
Example broken_markup_run :
  render_bindings_table style_by_name key strict_markup
    [(1%nat, save_ctrl_s, true, ""); (2%nat, broken_help, true, "")]
  = Raises MarkupError /\
  render_bindings_table style_by_name key strict_markup
    [(1%nat, save_ctrl_s, true, ""); (1%nat, quit_q, true, "")]
  = render_bindings_table style_by_name key plain_markup
      [(1%nat, save_ctrl_s, true, ""); (1%nat, quit_q, true, "")].
Proof. split; reflexivity. Qed.

(** Two clicks, the first while offline, the second answered: one error
    notice from the first attempt, the counters of the second. *)
Example two_clicks_run :
  let w := activate true on_click env_ok
             (activate true on_click env_offline (start StarCount_new 0)) in
  notices w = [error_notice]
  /\ List.length (filter is_get (events w)) = 2%nat
  /\ self w = {| stars := PyInt 42; forks := PyInt 7; loading := false; tooltip := None |}.
Proof. repeat split. Qed.

(** * More on the refresh worker *)

(** X1.  A refresh issues at most one GET, always to the repository URL:
    exactly one when httpx is available, the delay returns and the client
    opens, and none otherwise.  A failed request is not retried. *)
Theorem refresh_issues_single_get (avail : bool) (e : env) (s : StarCount) (t : N) :
  filter is_get (events (snd (get_stars avail e (start s t)))) =
  if avail && answered (sleep_reply e) && answered (aenter_reply e)
  then [Await (HttpGet repo_url)] else [].
Proof. unfold answered. destruct avail; worker_cases; reflexivity. Qed.

(** X2.  The HTTP client is closed exactly once whenever it was opened, also
    when the request or the parsing of the body raises, and then the close is
    the last suspension point of the attempt; a client that never opened is
    never closed. *)
Theorem client_closed_iff_opened (avail : bool) (e : env) (s : StarCount) (t : N) :
  let evs := events (snd (get_stars avail e (start s t))) in
  filter is_exit evs =
    (if avail && answered (sleep_reply e) && answered (aenter_reply e)
     then [Await AExit] else []) /\
  hd_error (rev (filter is_await evs)) =
    (if avail && answered (sleep_reply e) && answered (aenter_reply e)
     then Some (Await AExit)
     else if avail && answered (sleep_reply e) then Some (Await AEnter)
     else if avail then Some (Await (Sleep 1))
     else None).
Proof.
  unfold answered. destruct avail; worker_cases; split; reflexivity.
Qed.


(** X4.  Refreshing twice against the same answers leaves the widget as
    refreshing once does. *)
Theorem refresh_idempotent (avail : bool) (e : env) (w : world) :
  self (snd (get_stars avail e (snd (get_stars avail e w)))) =
  self (snd (get_stars avail e w)).
Proof. destruct avail; worker_cases; reflexivity. Qed.

(** ** Sessions *)

Lemma notices_of_app (l1 l2 : list event) :
  notices_of (l1 ++ l2) = (notices_of l1 ++ notices_of l2)%list.
Proof.
  induction l1 as [|ev l1 IH]; [reflexivity | ].
  destruct ev; cbn; now rewrite IH.
Qed.

(** What one run of [get_stars] adds to the notices. *)
Lemma refresh_notices (avail : bool) (e : env) (s : StarCount) (t : N) :
  notices (snd (get_stars avail e (start s t))) =
  if avail then (if caught e then [error_notice] else []) else [install_notice].
Proof.
  destruct avail; [ | reflexivity].
  unfold caught. rewrite (failure_at e (snd (set_loading true e (start s t)))).
  worker_cases; try discriminate; reflexivity.
Qed.

Lemma get_stars_appends_notices (avail : bool) (e : env) (w : world) :
  notices (snd (get_stars avail e w)) =
  (notices w
   ++ (if avail then (if caught e then [error_notice] else []) else [install_notice]))%list.
Proof.
  rewrite get_stars_frame.
  pose proof (refresh_notices avail e (self w) (clock w)) as Hn.
  destruct (get_stars avail e (start (self w) (clock w))) as [r w'].
  cbn [snd] in *. unfold notices, events, trace in *. cbn [log].
  now rewrite rev_app_distr, map_app, notices_of_app, Hn.
Qed.

Lemma get_stars_keeps_tooltip (avail : bool) (e : env) (w : world) :
  tooltip (self (snd (get_stars avail e w))) = tooltip (self w).
Proof. destruct avail; worker_cases; reflexivity. Qed.

Lemma activate_appends_notices (avail : bool) (a : activation) (e : env) (w : world) :
  notices (activate avail (handler_of a) e w) =
  (notices w
   ++ (if avail then (if caught e then [error_notice] else []) else [install_notice]))%list.
Proof.
  rewrite activate_runs_get_stars, get_stars_appends_notices. reflexivity.
Qed.

(** X5.  [get_stars] never touches the tooltip: once the widget is mounted,
    the tooltip reads "Click to refresh" after any session of clicks and
    re-mounts, whatever the attempts meet. *)
Theorem tooltip_survives_sessions
    (avail : bool) (e0 : env) (acts : list (activation * env)) (w : world) :
  tooltip (self (run_session avail acts (activate avail on_mount e0 w))) =
  Some "Click to refresh".
Proof.
  assert (Hmount : tooltip (self (activate avail on_mount e0 w)) = Some "Click to refresh").
  { rewrite (activate_runs_get_stars avail Mounted), get_stars_keeps_tooltip.
    reflexivity. }
  revert Hmount. generalize (activate avail on_mount e0 w). clear w e0.
  induction acts as [|[a e] acts IH]; intros w Hw; [exact Hw | ].
  cbn [run_session]. apply IH.
  rewrite activate_runs_get_stars, get_stars_keeps_tooltip.
  destruct a; [reflexivity | exact Hw].
Qed.

(** X6.  Without httpx the install notice is emitted again on every
    activation: a session of [n] activations shows it [n] times, passes no
    time, and leaves both counters and [loading] as they were. *)
Theorem sessions_without_httpx (acts : list (activation * env)) (w : world) :
  let w' := run_session false acts w in
  notices w' = (notices w ++ repeat install_notice (List.length acts))%list /\
  stars (self w') = stars (self w) /\
  forks (self w') = forks (self w) /\
  loading (self w') = loading (self w) /\
  clock w' = clock w.
Proof.
  revert w. induction acts as [|[a e] acts IH]; intros w.
  - cbn. now rewrite app_nil_r.
  - cbn [run_session List.length repeat].
    destruct (IH (activate false (handler_of a) e w)) as (Hn & Hs & Hf & Hl & Hc).
    cbv zeta. rewrite Hn, Hs, Hf, Hl, Hc, activate_appends_notices, <- app_assoc.
    destruct a; repeat split.
Qed.

(** X7.  With httpx a session shows one error notice for every attempt that
    failed with an instance of [Exception], and nothing else: successful
    attempts, and attempts ended by an exception that is not caught, are
    silent. *)
Theorem sessions_with_httpx (acts : list (activation * env)) (w : world) :
  notices (run_session true acts w) =
  (notices w
   ++ repeat error_notice (List.length (filter (fun ae => caught (snd ae)) acts)))%list.
Proof.
  revert w. induction acts as [|[a e] acts IH]; intros w.
  - cbn. now rewrite app_nil_r.
  - cbn [run_session filter snd]. rewrite IH, activate_appends_notices, <- app_assoc.
    destruct (caught e); reflexivity.
Qed.

(** * More on the key panel *)

(** ** Section breaks *)

(** X8.  The rows of the table, with their section breaks: when the
    description of every binding the table shows is well-formed markup, every
    run of consecutive bindings with the same namespace contributes its rows,
    and exactly the last row of every run ends a section (the test
    [namespace != previous_namespace] of line 85 never suppresses a break);
    otherwise [MarkupError] is raised. *)
Theorem every_run_ends_a_section
    (get_component_rich_style : string -> string)
    (get_key_display : Binding -> string)
    (from_markup : string -> string -> option Text)
    (bindings : list ActiveBinding) :
  if well_marked get_component_rich_style from_markup bindings
  then exists table,
      render_bindings_table get_component_rich_style get_key_display from_markup
        bindings = Done table /\
      map cells_and_end (rows table) =
      flat_map
        (fun kg =>
           mark_last
             (map (row_of get_component_rich_style get_key_display from_markup)
                (first_per_action (map binding_of (snd kg)))))
        (groupby Nat.eqb itemgetter_0 bindings)
  else render_bindings_table get_component_rich_style get_key_display from_markup
         bindings = Raises MarkupError.
Proof.
  exact (render_bindings_table_rows get_component_rich_style get_key_display
           from_markup bindings).
Qed.

(** ** What the table does not look at *)

Lemma groupby_map {A B K} (eqb : K -> K -> bool) (f : A -> B) (keyf : B -> K) (l : list A) :
  groupby eqb keyf (map f l) =
  map (fun kg => (fst kg, map f (snd kg))) (groupby eqb (fun x => keyf (f x)) l).
Proof.
  induction l as [|x l IH]; [reflexivity | ].
  cbn [map groupby]. rewrite IH.
  destruct (groupby eqb (fun x => keyf (f x)) l) as [|[k g] gs]; [reflexivity | ].
  cbn [map fst snd]. now destruct (eqb (keyf (f x)) k).
Qed.

(** The runs of the table, read off the nodes and bindings alone. *)
Lemma runs_of_node_and_binding (l : list ActiveBinding) :
  runs_of l =
  map (fun kg => (fst kg, map snd (snd kg)))
    (groupby Nat.eqb fst (map node_and_binding l)).
Proof.
  unfold runs_of.
  rewrite groupby_map, map_map. apply map_ext. intros [k g]. cbn [fst snd].
  now rewrite map_map.
Qed.

(** X9.  The table never looks at the [enabled] flag or at the tooltip of an
    active binding: two lists of active bindings with the same nodes and the
    same bindings, in the same order, render the same table, so a disabled
    binding is listed exactly like an enabled one. *)
Theorem table_ignores_enabled_and_tooltip
    (get_component_rich_style : string -> string)
    (get_key_display : Binding -> string)
    (from_markup : string -> string -> option Text)
    (l1 l2 : list ActiveBinding) :
  map node_and_binding l1 = map node_and_binding l2 ->
  render_bindings_table get_component_rich_style get_key_display from_markup l1 =
  render_bindings_table get_component_rich_style get_key_display from_markup l2.
Proof.
  intros H. rewrite !render_bindings_table_runs.
  now rewrite !runs_of_node_and_binding, H.
Qed.

Lemma table_ignores_enabled_and_tooltip_witness :
  render_bindings_table style_by_name key plain_markup
    [(1%nat, save_ctrl_s, true, ""); (1%nat, save_f2, true, "")] =
  render_bindings_table style_by_name key plain_markup
    [(1%nat, save_ctrl_s, false, "greyed out"); (1%nat, save_f2, true, "other")].
Proof.
  apply (table_ignores_enabled_and_tooltip style_by_name key plain_markup
           [(1%nat, save_ctrl_s, true, ""); (1%nat, save_f2, true, "")]
           [(1%nat, save_ctrl_s, false, "greyed out"); (1%nat, save_f2, true, "other")]).
  reflexivity.
Defined.

Lemma in_runs (bindings : list ActiveBinding) (ab : ActiveBinding) :
  In ab bindings <->
  exists kg, In kg (groupby Nat.eqb itemgetter_0 bindings) /\ In ab (snd kg).
Proof.
  rewrite <- (groupby_concat Nat.eqb itemgetter_0 bindings) at 1.
  rewrite in_concat. split.
  - intros (g & Hg & Hab). apply in_map_iff in Hg as (kg & <- & Hkg). eauto.
  - intros (kg & Hkg & Hab). exists (snd kg). split; [now apply in_map | exact Hab].
Qed.

Lemma run_key (bindings : list ActiveBinding) kg ab :
  In kg (groupby Nat.eqb itemgetter_0 bindings) -> In ab (snd kg) ->
  itemgetter_0 ab = fst kg.
Proof.
  intros Hkg Hab.
  pose proof (groupby_group_keys bindings) as H.
  rewrite Forall_forall in H. specialize (H kg Hkg).
  rewrite Forall_forall in H. now apply H.
Qed.

(** X10.  When the description of every binding the table shows is
    well-formed markup, the table is returned and its rows are those of the
    shown bindings; otherwise [MarkupError] is raised, and [IndexError]
    never.  The shown bindings are active bindings, and no action is lost:
    for every active binding a binding of the same namespace with the same
    action is shown. *)
Theorem every_action_is_shown
    (get_component_rich_style : string -> string)
    (get_key_display : Binding -> string)
    (from_markup : string -> string -> option Text)
    (bindings : list ActiveBinding) :
  (if well_marked get_component_rich_style from_markup bindings
   then exists table,
       render_bindings_table get_component_rich_style get_key_display from_markup
         bindings = Done table /\
       map (fun r => Some (cells r)) (rows table) =
       map (fun nb =>
              row_of get_component_rich_style get_key_display from_markup (snd nb))
         (shown_bindings bindings)
   else render_bindings_table get_component_rich_style get_key_display from_markup
          bindings = Raises MarkupError) /\
  incl (shown_bindings bindings) (map node_and_binding bindings) /\
  forall ab, In ab bindings ->
    exists b, In (itemgetter_0 ab, b) (shown_bindings bindings) /\
              action b = action (binding_of ab).
Proof.
  split; [ | split].
  - exact (rows_of_shown_bindings get_component_rich_style get_key_display
             from_markup bindings).
  - intros [n b] Hnb. unfold shown_bindings in Hnb.
    apply in_flat_map in Hnb as (kg & Hkg & Hnb).
    apply in_map_iff in Hnb as (b' & Heq & Hb'). injection Heq as <- <-.
    apply incl_first_per_action in Hb'. apply in_map_iff in Hb' as (ab & <- & Hab).
    apply in_map_iff. exists ab. split.
    + unfold node_and_binding. now rewrite (run_key bindings kg ab Hkg Hab).
    + apply in_runs. eauto.
  - intros ab Hab. apply in_runs in Hab as (kg & Hkg & Hab).
    pose proof (find_first_per_action (action (binding_of ab)) (map binding_of (snd kg)))
      as Hfind.
    destruct (find_action (action (binding_of ab)) (map binding_of (snd kg)))
      as [b|] eqn:Hrun'.
    + apply find_some in Hfind as [Hin Hact].
      exists b. split.
      * unfold shown_bindings. apply in_flat_map. exists kg. split; [exact Hkg | ].
        rewrite (run_key bindings kg ab Hkg Hab). now apply in_map.
      * unfold has_action in Hact. now apply String.eqb_eq in Hact.
    + exfalso. unfold find_action in Hrun'.
      assert (Hno := find_none _ _ Hrun' (binding_of ab) (in_map binding_of _ _ Hab)).
      unfold has_action in Hno. now rewrite String.eqb_refl in Hno.
Qed.

(** ** Order of the rows *)

Lemma subseq_refl {A} (l : list A) : subseq l l.
Proof. induction l; constructor; assumption. Qed.

Lemma subseq_trans {A} (l1 l2 l3 : list A) :
  subseq l1 l2 -> subseq l2 l3 -> subseq l1 l3.
Proof.
  intros H12 H23. revert l1 H12.
  induction H23 as [|x l2 l3 H23 IH|x l2 l3 H23 IH]; intros l1 H12.
  - exact H12.
  - apply subseq_skip. now apply IH.
  - inversion H12; subst.
    + apply subseq_skip. now apply IH.
    + apply subseq_take. now apply IH.
Qed.

Lemma subseq_filter {A} (p : A -> bool) (l : list A) : subseq (filter p l) l.
Proof.
  induction l as [|x l IH]; cbn; [constructor | ].
  destruct (p x); constructor; exact IH.
Qed.

Lemma subseq_app {A} (l1 l2 l3 l4 : list A) :
  subseq l1 l2 -> subseq l3 l4 -> subseq (l1 ++ l3) (l2 ++ l4).
Proof.
  intros H12 H34. induction H12; cbn; [exact H34 | | ]; constructor; assumption.
Qed.

Lemma subseq_map {A B} (f : A -> B) (l1 l2 : list A) :
  subseq l1 l2 -> subseq (map f l1) (map f l2).
Proof. intros H. induction H; cbn; constructor; assumption. Qed.

Lemma subseq_length {A} (l1 l2 : list A) :
  subseq l1 l2 -> (List.length l1 <= List.length l2)%nat.
Proof. intros H. induction H; cbn; lia. Qed.

Lemma subseq_first_per_action (bs : list Binding) : subseq (first_per_action bs) bs.
Proof.
  induction bs as [|b bs IH]; cbn [first_per_action]; [constructor | ].
  apply subseq_take. eapply subseq_trans; [apply subseq_filter | exact IH].
Qed.

Lemma subseq_shown_groups (groups : list (Node * list ActiveBinding)) :
  Forall (fun kg => Forall (fun ab => itemgetter_0 ab = fst kg) (snd kg)) groups ->
  subseq
    (flat_map
       (fun kg => map (pair (fst kg)) (first_per_action (map binding_of (snd kg))))
       groups)
    (map node_and_binding (List.concat (map snd groups))).
Proof.
  intros H. induction H as [|[k g] groups Hk _ IH]; [constructor | ].
  cbn [flat_map map List.concat fst snd] in *. rewrite map_app.
  apply subseq_app; [ | exact IH].
  replace (map node_and_binding g) with (map (pair k) (map binding_of g)).
  - apply subseq_map, subseq_first_per_action.
  - rewrite map_map. apply map_ext_in. intros ab Hab.
    rewrite Forall_forall in Hk. unfold node_and_binding. now rewrite (Hk ab Hab).
Qed.

Lemma groupby_cons_head (x : ActiveBinding) (rest : list ActiveBinding) :
  exists g gs,
    groupby Nat.eqb itemgetter_0 (x :: rest) = (itemgetter_0 x, x :: g) :: gs.
Proof.
  cbn [groupby]. destruct (groupby Nat.eqb itemgetter_0 rest) as [|[k g] gs].
  - now exists [], [].
  - destruct (Nat.eqb_spec (itemgetter_0 x) k) as [<-|_]; eauto.
Qed.

(** X11.  The rows follow the order of the active bindings: the shown
    bindings are the active ones with some left out, and the first active
    binding is always the first shown.  When the description of every shown
    binding is well-formed markup the table is returned, its rows are those
    of the shown bindings in that order, and it has at most one row per
    active binding; otherwise [MarkupError] is raised. *)
Theorem rows_follow_binding_order
    (get_component_rich_style : string -> string)
    (get_key_display : Binding -> string)
    (from_markup : string -> string -> option Text)
    (bindings : list ActiveBinding) :
  (if well_marked get_component_rich_style from_markup bindings
   then exists table,
       render_bindings_table get_component_rich_style get_key_display from_markup
         bindings = Done table /\
       map (fun r => Some (cells r)) (rows table) =
       map (fun nb =>
              row_of get_component_rich_style get_key_display from_markup (snd nb))
         (shown_bindings bindings) /\
       (List.length (rows table) <= List.length bindings)%nat
   else render_bindings_table get_component_rich_style get_key_display from_markup
          bindings = Raises MarkupError) /\
  subseq (shown_bindings bindings) (map node_and_binding bindings) /\
  hd_error (shown_bindings bindings) = hd_error (map node_and_binding bindings).
Proof.
  assert (Hsub : subseq (shown_bindings bindings) (map node_and_binding bindings)).
  { rewrite <- (groupby_concat Nat.eqb itemgetter_0 bindings) at 2.
    apply subseq_shown_groups, groupby_group_keys. }
  split; [ | split; [exact Hsub | ]].
  - pose proof (rows_of_shown_bindings get_component_rich_style get_key_display
                  from_markup bindings) as H.
    destruct (well_marked _ _ _); [ | exact H].
    destruct H as (table & Hrun & Hrows). exists table.
    split; [exact Hrun | split; [exact Hrows | ]].
    apply subseq_length in Hsub.
    apply (f_equal (@List.length _)) in Hrows. rewrite !length_map in *.
    now rewrite Hrows.
  - destruct bindings as [|x rest]; [reflexivity | ].
    unfold shown_bindings.
    destruct (groupby_cons_head x rest) as (g & gs & ->). reflexivity.
Qed.

(** ** Namespaces that come in one piece *)

Lemma filter_pair_run (n k : Node) (a : string) (bs : list Binding) :
  filter (fun nb => Nat.eqb (fst nb) n && has_action a (snd nb)) (map (pair k) bs) =
  if Nat.eqb k n then map (pair k) (filter (has_action a) bs) else [].
Proof.
  induction bs as [|b bs IH]; cbn [map filter fst snd].
  - now destruct (Nat.eqb k n).
  - rewrite IH. destruct (Nat.eqb k n); cbn [andb]; [ | reflexivity].
    now destruct (has_action a b).
Qed.

Lemma existsb_in_run (n k : Node) (a : string) (g : list ActiveBinding) :
  Forall (fun ab => itemgetter_0 ab = k) g ->
  existsb (in_namespace_with_action n a) g =
  Nat.eqb k n && existsb (has_action a) (map binding_of g).
Proof.
  intros H. induction H as [|ab g Hab _ IH]; cbn [existsb map].
  - now rewrite andb_false_r.
  - rewrite IH. unfold in_namespace_with_action at 1. rewrite Hab.
    now destruct (Nat.eqb k n).
Qed.

Lemma other_runs_show_nothing (n : Node) (a : string)
    (groups : list (Node * list ActiveBinding)) :
  Forall (fun kg => Forall (fun ab => itemgetter_0 ab = fst kg) (snd kg)) groups ->
  existsb (Nat.eqb n) (map fst groups) = false ->
  filter (fun nb => Nat.eqb (fst nb) n && has_action a (snd nb))
    (flat_map
       (fun kg => map (pair (fst kg)) (first_per_action (map binding_of (snd kg))))
       groups) = [] /\
  existsb (in_namespace_with_action n a) (List.concat (map snd groups)) = false.
Proof.
  intros H. induction H as [|[k g] groups Hk _ IH]; intros Hn; [now split | ].
  cbn [map fst snd existsb flat_map List.concat] in *.
  apply orb_false_iff in Hn as [Hkn Hrest]. destruct (IH Hrest) as [IH1 IH2].
  rewrite filter_app, existsb_app, filter_pair_run, (existsb_in_run n k a g Hk).
  rewrite Nat.eqb_sym in Hkn. rewrite Hkn. cbn [app andb orb].
  split; [exact IH1 | exact IH2].
Qed.

Lemma one_row_per_namespace_and_action_groups (n : Node) (a : string)
    (groups : list (Node * list ActiveBinding)) :
  Forall (fun kg => Forall (fun ab => itemgetter_0 ab = fst kg) (snd kg)) groups ->
  distinct (map fst groups) = true ->
  List.length
    (filter (fun nb => Nat.eqb (fst nb) n && has_action a (snd nb))
       (flat_map
          (fun kg => map (pair (fst kg)) (first_per_action (map binding_of (snd kg))))
          groups)) =
  if existsb (in_namespace_with_action n a) (List.concat (map snd groups))
  then 1%nat else 0%nat.
Proof.
  intros H. induction H as [|[k g] groups Hk Hks IH]; intros Hd; [reflexivity | ].
  cbn [map fst snd distinct flat_map List.concat] in *.
  apply andb_true_iff in Hd as [Hfresh Hd]. apply negb_true_iff in Hfresh.
  rewrite filter_app, length_app, existsb_app, filter_pair_run,
    (existsb_in_run n k a g Hk).
  destruct (Nat.eqb_spec k n) as [->|Hkn]; cbn [andb orb].
  - destruct (other_runs_show_nothing n a groups Hks Hfresh) as [E1 E2].
    etransitivity; [exact (f_equal (fun l => (_ + List.length l)%nat) E1) | ].
    etransitivity;
      [ | exact (f_equal (fun b => if _ || b then 1%nat else 0%nat) (eq_sym E2))].
    cbn [List.length]. rewrite length_map, orb_false_r, Nat.add_0_r.
    apply (count_first_per_action a (map binding_of g)).
  - cbn [List.length plus]. exact (IH Hd).
Qed.

(** X12.  When every namespace comes in one piece (no two runs share a
    namespace), exactly one binding is shown for every namespace and action
    that some active binding has, and none for the others; the table, which
    is returned when the description of every shown binding is well-formed
    markup ([MarkupError] is raised otherwise), has the rows of the shown
    bindings. *)
Theorem one_row_per_namespace_and_action
    (get_component_rich_style : string -> string)
    (get_key_display : Binding -> string)
    (from_markup : string -> string -> option Text)
    (bindings : list ActiveBinding) (n : Node) (a : string) :
  distinct (map fst (groupby Nat.eqb itemgetter_0 bindings)) = true ->
  (if well_marked get_component_rich_style from_markup bindings
   then exists table,
       render_bindings_table get_component_rich_style get_key_display from_markup
         bindings = Done table /\
       map (fun r => Some (cells r)) (rows table) =
       map (fun nb =>
              row_of get_component_rich_style get_key_display from_markup (snd nb))
         (shown_bindings bindings)
   else render_bindings_table get_component_rich_style get_key_display from_markup
          bindings = Raises MarkupError) /\
  List.length
    (filter (fun nb => Nat.eqb (fst nb) n && has_action a (snd nb))
       (shown_bindings bindings)) =
  if existsb (in_namespace_with_action n a) bindings then 1%nat else 0%nat.
Proof.
  intros Hd. split.
  - exact (rows_of_shown_bindings get_component_rich_style get_key_display
             from_markup bindings).
  - pose proof (one_row_per_namespace_and_action_groups n a _
                  (groupby_group_keys bindings) Hd) as H.
    rewrite groupby_concat in H. exact H.
Qed.

Lemma one_row_per_namespace_and_action_witness :
  (exists table,
      render_bindings_table style_by_name key plain_markup
        [(1%nat, save_ctrl_s, true, ""); (1%nat, save_f2, true, "");
         (2%nat, quit_q, true, "")]
      = Done table /\
      map (fun r => Some (cells r)) (rows table) =
      map (fun nb => row_of style_by_name key plain_markup (snd nb))
        (shown_bindings
           [(1%nat, save_ctrl_s, true, ""); (1%nat, save_f2, true, "");
            (2%nat, quit_q, true, "")])) /\
  List.length
    (filter (fun nb => Nat.eqb (fst nb) 1 && has_action "save" (snd nb))
       (shown_bindings
          [(1%nat, save_ctrl_s, true, ""); (1%nat, save_f2, true, "");
           (2%nat, quit_q, true, "")])) = 1%nat.
Proof.
  apply (one_row_per_namespace_and_action style_by_name key plain_markup
           [(1%nat, save_ctrl_s, true, ""); (1%nat, save_f2, true, "");
            (2%nat, quit_q, true, "")] 1%nat "save").
  reflexivity.
Defined.

Lemma defaultdict_get_append {V} (d : list (string * list V)) (k k' : string) (v : V) :
  defaultdict_get (defaultdict_append d k v) k' =
  if String.eqb k k' then (defaultdict_get d k' ++ [v])%list else defaultdict_get d k'.
Proof.
  unfold defaultdict_get.
  induction d as [|[k0 vs] d IH]; cbn [defaultdict_append find fst snd].
  - now destruct (String.eqb k k').
  - destruct (String.eqb_spec k0 k) as [->|Hk0]; cbn [find fst snd].
    + now destruct (String.eqb k k').
    + destruct (String.eqb_spec k0 k') as [->|Hk0']; [ | exact IH].
      destruct (String.eqb_spec k k'); [congruence | reflexivity].
Qed.

Lemma defaultdict_get_fold (g : list ActiveBinding) (a : string) :
  forall d,
    defaultdict_get (fold_left record_binding g d) a =
    (defaultdict_get d a
     ++ map stored_of (filter (fun ab => has_action a (binding_of ab)) g))%list.
Proof.
  induction g as [|[[[n b] en] tt] g IH]; intros d.
  - cbn. now rewrite app_nil_r.
  - cbn [fold_left record_binding filter binding_of]. rewrite IH, defaultdict_get_append.
    unfold has_action. destruct (String.eqb (action b) a); [ | reflexivity].
    cbn [map stored_of]. now rewrite <- app_assoc.
Qed.

(** X13.  The dictionary built for a run loses nothing: under every action it
    holds exactly the run's bindings with that action, in their order, each
    with its [enabled] flag and tooltip, and its keys are the run's actions
    in the order they first appear. *)
Theorem action_to_bindings_partitions (g : list ActiveBinding) (a : string) :
  defaultdict_get (action_to_bindings g) a =
    map stored_of (filter (fun ab => has_action a (binding_of ab)) g) /\
  map fst (action_to_bindings g) = map action (first_per_action (map binding_of g)).
Proof.
  split.
  - exact (defaultdict_get_fold g a []).
  - destruct (action_to_bindings_heads g) as [[_ Hkeys] Hheads].
    now rewrite <- Hkeys, Hheads.
Qed.

(** ** The runs the loop visits *)

(** X14.  The loop of line 55 visits every active binding exactly once, in
    order, run by run: the runs put end to end are the bindings, no run is
    empty (the [continue] of line 58 is never taken), all bindings of a run
    have the run's namespace, and neighbouring runs have different
    namespaces. *)
Theorem runs_partition_bindings (bindings : list ActiveBinding) :
  let runs := groupby Nat.eqb itemgetter_0 bindings in
  List.concat (map snd runs) = bindings /\
  Forall (fun kg => snd kg <> [] /\
                    Forall (fun ab => itemgetter_0 ab = fst kg) (snd kg)) runs /\
  adjacent_differ (map fst runs) = true.
Proof.
  cbv zeta. split; [apply groupby_concat | split; [ | apply groupby_runs_maximal]].
  pose proof (groupby_groups_nonempty Nat.eqb itemgetter_0 bindings) as Hne.
  pose proof (groupby_group_keys bindings) as Hk.
  rewrite Forall_forall in *. intros kg Hkg. split; [now apply Hne | now apply Hk].
Qed.

(** ** Time to admire the loading indicator *)

(** X15.  When the one-second sleep is not interrupted, an attempt assigns
    [loading = False] no earlier than 1000 ms after it started, however fast
    the request fails or succeeds. *)
Theorem loading_shown_for_a_second
    (e : env) (s : StarCount) (t : N) (i : nat) (en : entry) :
  answered (sleep_reply e) = true ->
  nth_error (trace (snd (get_stars true e (start s t)))) i = Some en ->
  what en = SetLoading false ->
  (t + 1000 <= at_ms en)%N.
Proof.
  unfold answered.
  remember (get_stars true e (start s t)) as r eqn:R.
  intros Ha Hn Hw. revert R Ha.
  worker_cases; intros -> Ha; try discriminate Ha;
    repeat (destruct i as [|i];
            [cbn -[N.add N.mul] in Hn; apply some_eq in Hn; subst en;
             first [ discriminate Hw | cbn -[N.add N.mul]; lia ] | ]);
    destruct i; discriminate Hn.
Qed.

Lemma loading_shown_for_a_second_witness :
  let en := {| at_ms := 1000;
               seen := {| stars := PyInt 25251; forks := PyInt 776; loading := true;
                          tooltip := None |};
               what := SetLoading false |} in
  nth_error (trace (snd (get_stars true env_offline (start StarCount_new 0)))) 6 = Some en /\
  (0 + 1000 <= at_ms en)%N.
Proof.
  split; [reflexivity | ].
  apply (loading_shown_for_a_second env_offline StarCount_new 0 6
           {| at_ms := 1000;
              seen := {| stars := PyInt 25251; forks := PyInt 776; loading := true;
                         tooltip := None |};
              what := SetLoading false |}); reflexivity.
Defined.



Example overlapping_clicks_run :
  let P := play_all true overlapping_clicks (empty_pool StarCount_new) in
  map snd (workers P) = [Finished (Ok tt); AtEnter] /\
  seen_by 0 P = [(SetLoading true, false); (Await (Sleep 1), true); (Await AEnter, true);
                 (Await (HttpGet repo_url), true); (Await AExit, true);
                 (SetStars (PyInt 42), true); (SetForks (PyInt 7), true);
                 (SetLoading false, true)] /\
  seen_by 1 P = [(SetLoading true, true); (Await (Sleep 1), true); (Await AEnter, false)].
Proof. repeat split. Qed.












